(** * SpeedyFibonacci: the benchmark timing engine, shallowly embedded

    The development follows the Python sources module by module:
    - [utils/constants.py]            -> [Module constants]
    - [benchmarking/validators.py]    -> [Module validators]
    - [benchmarking/timer.py]         -> [Module timer]
    - [utils/base_technique.py]       -> [Module base_technique]
    - [benchmarking/benchmark_runner.py] -> [Module benchmark_runner],
                                            [Module benchmark_batch]
    - [benchmarking/validators.py], [validate_technique]
                                         -> [Module technique_validation]
    - [benchmarking/technique_loader.py], the interface check
                                         -> [Module technique_loader]
    - [techniques/*/fibonacci.py]     -> [Module techniques]

    Python integers are [Z]; [float] seconds are exact rationals [Q];
    a [dict] is a [gmap]; exceptions are values of an error type [res].
    The host (the monotonic clock behind [time.perf_counter], the wall
    clock behind [datetime.now], and the record of which external
    callables were invoked) is threaded explicitly as a [World]. *)

From Stdlib Require Import ZArith QArith Lia Lqa Sorted.
From stdpp Require Import base list strings pretty gmap.

Local Open Scope Z_scope.

(** ** The fragment of Python the sources rely on *)
Module Py.

(** An exception object: the name of its class, the names of the
    classes it inherits from, and the text [str(e)] gives. *)
Record exn := Exn {
  exn_type : string;
  exn_bases : list string;
  exn_str : string
}.

(** [isinstance(e, cls)]: what an [except cls] clause tests. *)
Definition isinstance (e : exn) (cls : string) : bool :=
  bool_decide (cls = exn_type e) || bool_decide (cls ∈ exn_bases e).

(** The built-in exception classes named in the sources. *)
Definition ValueError (msg : string) : exn :=
  Exn "ValueError" ["Exception"; "BaseException"] msg.
Definition RecursionError (msg : string) : exn :=
  Exn "RecursionError" ["RuntimeError"; "Exception"; "BaseException"] msg.
Definition MemoryError (msg : string) : exn :=
  Exn "MemoryError" ["Exception"; "BaseException"] msg.
Definition OverflowError (msg : string) : exn :=
  Exn "OverflowError" ["ArithmeticError"; "Exception"; "BaseException"] msg.
Definition KeyboardInterrupt (msg : string) : exn :=
  Exn "KeyboardInterrupt" ["BaseException"] msg.

(** The outcome of a call: a value, or a raised exception. *)
Inductive res (A : Type) : Type :=
| Ret (a : A)
| Raise (e : exn).
Arguments Ret {A} a.
Arguments Raise {A} e.

(** The clauses of a [try ... except C1 ... except C2 ...] statement are
    tried in order; the first whose class matches handles the
    exception, and with no match the exception propagates. *)
Fixpoint first_match {A : Type} (e : exn) (clauses : list (string * (exn → A)))
  : option A :=
  match clauses with
  | [] => None
  | (cls, handler) :: rest =>
      if isinstance e cls then Some (handler e) else first_match e rest
  end.

(** [str(n)] and [f"{n}"] for an integer. *)
Definition str (n : Z) : string := pretty n.

(** [range(lo, hi)] *)
Definition range (lo hi : Z) : list Z := seqZ lo (hi - lo).

(** [sorted(l, key=key, reverse=reverse)]. The built-in sort is stable,
    and with [reverse=True] it orders by descending key while elements
    with equal keys still keep their original order. [goes_before y x]
    says that [y] has to stay in front of an [x] that came earlier. *)
Definition goes_before {A : Type} (key : A → Z) (reverse : bool) (y x : A) : bool :=
  if reverse then key x <? key y else key y <? key x.

Fixpoint insert_sorted {A : Type} (key : A → Z) (reverse : bool) (x : A) (l : list A)
  : list A :=
  match l with
  | [] => [x]
  | y :: l' =>
      if goes_before key reverse y x
      then y :: insert_sorted key reverse x l'
      else x :: y :: l'
  end.

Definition sorted {A : Type} (l : list A) (key : A → Z) (reverse : bool) : list A :=
  foldr (insert_sorted key reverse) [] l.

(** [max(l, key=key)]: the first item whose key is maximal; an empty
    argument raises [ValueError]. *)
Definition max {A : Type} (l : list A) (key : A → Z) : res A :=
  match l with
  | [] => Raise (ValueError "max() arg is an empty sequence")
  | x :: xs =>
      Ret (fold_left (λ best y, if key best <? key y then y else best) xs x)
  end.

End Py.
Import Py.

(** ** The host *)
Module Host.

(** Calls to external callables, in the order they were made. *)
Inductive event : Type :=
| EvSetup
| EvCall (n : Z)
| EvTeardown.

(** [ticks] counts the readings of [time.perf_counter] so far, [nows]
    those of [datetime.now]; [trace] lists the external calls made. *)
Record World := mkWorld {
  ticks : nat;
  nows : nat;
  trace : list event
}.

(** What the two clocks answer at their k-th reading. *)
Record Clocks := mkClocks {
  perf_counter_at : nat → Q;
  datetime_now_at : nat → Z
}.

Definition perf_counter (c : Clocks) (w : World) : Q * World :=
  (perf_counter_at c (ticks w), mkWorld (S (ticks w)) (nows w) (trace w)).

Definition datetime_now (c : Clocks) (w : World) : Z * World :=
  (datetime_now_at c (nows w), mkWorld (ticks w) (S (nows w)) (trace w)).

Definition record (ev : event) (w : World) : World :=
  mkWorld (ticks w) (nows w) (trace w ++ [ev]).

End Host.
Import Host.

(** ** utils/constants.py *)
Module constants.

Definition DEFAULT_DURATION : Q := 1%Q.

Definition KNOWN_FIBONACCI_items : list (Z * Z) :=
  [ (0, 0); (1, 1); (2, 1); (3, 2); (4, 3); (5, 5); (6, 8); (7, 13);
    (8, 21); (9, 34); (10, 55); (11, 89); (12, 144); (13, 233);
    (14, 377); (15, 610); (16, 987); (17, 1597); (18, 2584);
    (19, 4181); (20, 6765); (25, 75025); (30, 832040); (35, 9227465);
    (40, 102334155); (45, 1134903170); (50, 12586269025);
    (55, 139583862445); (60, 1548008755920); (70, 190392490709135);
    (80, 23416728348467685); (90, 2880067194370816120);
    (100, 354224848179261915075);
    (150, 9969216677189303386214405760200);
    (200, 280571172992510140037611932413038677189525);
    (300, 222232244629420445529739893461909967206666939096499764990979600);
    (500, 139423224561697880139724382870407283950070256587697307264108962948325571622863290691557658876222521294125) ].

Definition KNOWN_FIBONACCI : gmap Z Z := list_to_map KNOWN_FIBONACCI_items.

End constants.
Import constants.

(** ** benchmarking/validators.py *)
Module validators.

Definition validate_result (n : Z) (result : Z) : bool :=
  match KNOWN_FIBONACCI !! n with
  | Some known => result =? known
  | None => true
  end.

Definition get_known_fibonacci (n : Z) : option Z := KNOWN_FIBONACCI !! n.

Definition compute_fibonacci_reference (n : Z) : res Z :=
  if n <? 0 then Raise (ValueError "n must be non-negative")
  else if n <=? 1 then Ret n
  else
    let '(a, b) :=
      fold_left (λ '(a, b) _, (b, a + b)) (range 2 (n + 1)) (0, 1) in
    Ret b.

End validators.
Import validators.

(** ** benchmarking/timer.py *)
Module timer.

Record TimingResult := mkTimingResult {
  count : Z;
  max_n : Z;
  actual_duration : Q;
  error : option string
}.

Record PrecisionTimer := mkPrecisionTimer {
  duration : Q
}.

(** How control leaves the [try] block of [run_for_duration], with the
    values the local variables hold at that point. *)
Inductive try_exit : Type :=
| Completed (n count : Z) (error_msg : option string)
| Excepted (n count : Z) (e : exn).

Section run_for_duration.
Context {V : Type}.
Variable clocks : Clocks.
Variable self : PrecisionTimer.
Variable func : Z → res V.
Variable validate_func : option (Z → V → res bool).

(** The [while] loop. Each unit of [fuel] pays for one evaluation of
    the loop condition; [None] means the fuel ran out. *)
Fixpoint while_loop (fuel : nat) (start_time : Q) (n count : Z) (w : World)
  : option (try_exit * World) :=
  match fuel with
  | O => None
  | S fuel' =>
      let '(now, w) := perf_counter clocks w in
      if Qlt_le_dec (now - start_time) (duration self) then
        let w := record (EvCall n) w in
        match func n with
        | Raise e => Some (Excepted n count e, w)
        | Ret result =>
            match validate_func with
            | Some validate =>
                match validate n result with
                | Raise e => Some (Excepted n count e, w)
                | Ret false =>
                    Some (Completed n count
                            (Some ("Validation failed at n=" +:+ str n)), w)
                | Ret true => while_loop fuel' start_time (n + 1) (count + 1) w
                end
            | None => while_loop fuel' start_time (n + 1) (count + 1) w
            end
        end
      else Some (Completed n count None, w)
  end.

(** The [except] clauses, in source order. *)
Definition except_clauses (n : Z) : list (string * (exn → string)) :=
  [ ("RecursionError", λ _, "RecursionError at n=" +:+ str n);
    ("MemoryError", λ _, "MemoryError at n=" +:+ str n);
    ("OverflowError", λ _, "OverflowError at n=" +:+ str n);
    ("Exception", λ e, exn_type e +:+ " at n=" +:+ str n +:+ ": " +:+ exn_str e) ].

Definition run_for_duration (fuel : nat) (start_n : Z) (w : World)
  : option (res TimingResult * World) :=
  let '(start_time, w) := perf_counter clocks w in
  match while_loop fuel start_time start_n 0 w with
  | None => None
  | Some (exit, w) =>
      let after_try :=
        match exit with
        | Completed n count error_msg => Ret (n, count, error_msg)
        | Excepted n count e =>
            match first_match e (except_clauses n) with
            | Some error_msg => Ret (n, count, Some error_msg)
            | None => Raise e
            end
        end in
      match after_try with
      | Raise e => Some (Raise e, w)
      | Ret (n, count, error_msg) =>
          let '(now, w) := perf_counter clocks w in
          let actual_duration := (now - start_time)%Q in
          let max_n := if 0 <? count then n - 1 else 0 in
          Some (Ret (mkTimingResult count max_n actual_duration error_msg), w)
      end
  end.

End run_for_duration.

End timer.

(** ** utils/base_technique.py *)
Module base_technique.

(** A technique as the benchmark sees it. Within one benchmark the
    runner calls [setup] once, [calculate] at most once per index, and
    [teardown] once, so each callable is given by the outcome of that
    call. *)
Record FibonacciTechnique := mkTechnique {
  name : string;
  description : string;
  time_complexity : string;
  space_complexity : string;
  calculate : Z → res Z;
  setup : res unit;
  teardown : res unit
}.

End base_technique.

(** ** benchmarking/benchmark_runner.py *)
Module benchmark_runner.
Import timer base_technique.

(** A [datetime] is kept as an integer reading of the wall clock. *)
Record BenchmarkResult := mkBenchmarkResult {
  technique_name : string;
  description : string;
  count : Z;
  max_n : Z;
  duration : Q;
  time_complexity : string;
  space_complexity : string;
  error : option string;
  timestamp : Z
}.

Definition success (r : BenchmarkResult) : bool :=
  match error r with None => true | Some _ => false end.

(** The field [timestamp] of the source is [summary_timestamp] here, as
    [BenchmarkResult] already has a field of that name. *)
Record BenchmarkSummary := mkBenchmarkSummary {
  results : list BenchmarkResult;
  total_duration : Q;
  summary_timestamp : Z
}.

Definition get_sorted_by_count (self : BenchmarkSummary) (descending : bool)
  : list BenchmarkResult :=
  sorted (results self) count descending.

Definition get_sorted_by_max_n (self : BenchmarkSummary) (descending : bool)
  : list BenchmarkResult :=
  sorted (results self) max_n descending.

Definition get_fastest (self : BenchmarkSummary) : res (option BenchmarkResult) :=
  match results self with
  | [] => Ret None
  | _ =>
      match Py.max (results self) count with
      | Ret r => Ret (Some r)
      | Raise e => Raise e
      end
  end.

Definition get_highest_n (self : BenchmarkSummary) : res (option BenchmarkResult) :=
  match results self with
  | [] => Ret None
  | _ =>
      match Py.max (results self) max_n with
      | Ret r => Ret (Some r)
      | Raise e => Raise e
      end
  end.

(** The field [duration] of the source is [runner_duration] here, as
    [BenchmarkResult] already has a field of that name. *)
Record BenchmarkRunner := mkBenchmarkRunner {
  runner_duration : Q;
  validate : bool;
  verbose : bool;
  timer : PrecisionTimer
}.

(** [BenchmarkRunner.__init__] *)
Definition BenchmarkRunner_init (duration : Q) (validate verbose : bool)
  : BenchmarkRunner :=
  mkBenchmarkRunner duration validate verbose (mkPrecisionTimer duration).

Section run_single.
Variable clocks : Clocks.
Variable self : BenchmarkRunner.

(** The constructor call [BenchmarkResult(...)]: the [timestamp]
    field takes its default, a reading of [datetime.now]. *)
Definition new_BenchmarkResult
    (technique_name description : string) (count max_n : Z) (duration : Q)
    (time_complexity space_complexity : string) (error : option string)
    (w : World) : BenchmarkResult * World :=
  let '(now, w) := datetime_now clocks w in
  (mkBenchmarkResult technique_name description count max_n duration
     time_complexity space_complexity error now, w).

Definition run_single (fuel : nat) (technique : FibonacciTechnique) (w : World)
  : option (res BenchmarkResult * World) :=
  (* Setup phase *)
  let w := record EvSetup w in
  let setup_handled :=
    match setup technique with
    | Ret _ => Ret None
    | Raise e =>
        match first_match e [("Exception", λ e, "Setup failed: " +:+ exn_str e)] with
        | Some msg => Ret (Some msg)
        | None => Raise e
        end
    end in
  match setup_handled with
  | Raise e => Some (Raise e, w)
  | Ret (Some msg) =>
      let '(r, w) :=
        new_BenchmarkResult
          (name technique) (base_technique.description technique)
          0 0 0%Q
          (base_technique.time_complexity technique)
          (base_technique.space_complexity technique)
          (Some msg) w in
      Some (Ret r, w)
  | Ret None =>
      (* Validation function if enabled *)
      let validate_func :=
        if validate self
        then Some (λ n result, Ret (validate_result n result))
        else None in
      (* Run the benchmark *)
      match run_for_duration clocks (timer self) (calculate technique)
              validate_func fuel 0 w with
      | None => None
      | Some (Raise e, w) => Some (Raise e, w)
      | Some (Ret timing_result, w) =>
          (* Teardown phase *)
          let w := record EvTeardown w in
          let teardown_handled :=
            match teardown technique with
            | Ret _ => Ret tt
            | Raise e =>
                match first_match e [("Exception", λ _, tt)] with
                | Some _ => Ret tt
                | None => Raise e
                end
            end in
          match teardown_handled with
          | Raise e => Some (Raise e, w)
          | Ret _ =>
              let '(r, w) :=
                new_BenchmarkResult
                  (name technique) (base_technique.description technique)
                  (timer.count timing_result)
                  (timer.max_n timing_result)
                  (timer.actual_duration timing_result)
                  (base_technique.time_complexity technique)
                  (base_technique.space_complexity technique)
                  (timer.error timing_result) w in
              Some (Ret r, w)
          end
      end
  end.

End run_single.

End benchmark_runner.

(** ** Reference notions the properties are stated against *)
Module reference.

(** The Fibonacci numbers as the specification defines them:
    F(0) = 0, F(1) = 1, F(n) = F(n-1) + F(n-2). *)
Fixpoint fib_spec (n : nat) : Z :=
  match n with
  | O => 0
  | S m =>
      match m with
      | O => 1
      | S k => fib_spec m + fib_spec k
      end
  end.

(** Whether the reference computation reproduces one table entry. *)
Definition agrees_with_table (item : Z * Z) : bool :=
  match compute_fibonacci_reference item.1 with
  | Ret r => r =? item.2
  | Raise _ => false
  end.

(** *** Vocabulary for one run of the timing loop *)
Section timing_loop.
Context {V : Type}.
Variable clocks : Clocks.
Variable self : timer.PrecisionTimer.
Variable func : Z → res V.
Variable validate_func : option (Z → V → res bool).

(** The validation step lets the value through. *)
Definition accepted (n : Z) (v : V) : Prop :=
  match validate_func with
  | Some validate => validate n v = Ret true
  | None => True
  end.

(** The call at index [k] returns and is counted. *)
Definition succeeds (k : Z) : Prop :=
  ∃ v, func k = Ret v ∧ accepted k v.

(** The call at index [k] returns a value the predicate refuses. *)
Definition rejected_at (k : Z) : Prop :=
  ∃ v validate,
    func k = Ret v ∧ validate_func = Some validate ∧ validate k v = Ret false.

(** Exception [e] escapes the loop body at index [k]: raised by the
    calculation, or by the validation predicate. *)
Definition raises_at (k : Z) (e : exn) : Prop :=
  func k = Raise e
  ∨ ∃ v validate,
      func k = Ret v ∧ validate_func = Some validate ∧ validate k v = Raise e.

(** The loop condition holds at the clock reading number [tick]. *)
Definition before_deadline (start_time : Q) (tick : nat) : Prop :=
  (perf_counter_at clocks tick - start_time < timer.duration self)%Q.

(** The ways the last evaluation of the loop condition, made at
    reading [tick] with locals [n] and [count], can end the loop. *)
Inductive loop_exit (start_time : Q) (n count : Z) (tick : nat)
  : timer.try_exit → Prop :=
| exit_deadline :
    ¬ before_deadline start_time tick →
    loop_exit start_time n count tick (timer.Completed n count None)
| exit_rejected :
    before_deadline start_time tick →
    rejected_at n →
    loop_exit start_time n count tick
      (timer.Completed n count (Some ("Validation failed at n=" +:+ str n)))
| exit_raised (e : exn) :
    before_deadline start_time tick →
    raises_at n e →
    loop_exit start_time n count tick (timer.Excepted n count e).

(** The call made by the iteration that ends the loop, if any. *)
Definition last_call (exit : timer.try_exit) : list Z :=
  match exit with
  | timer.Completed _ _ None => []
  | timer.Completed n _ (Some _) => [n]
  | timer.Excepted n _ _ => [n]
  end.

(** A run started in world [w] gets as far as making the call at
    index [n]: every earlier call succeeded and the deadline had not
    passed at any evaluation of the loop condition up to that one. *)
Definition call_is_made (w : World) (start_n n : Z) : Prop :=
  start_n ≤ n
  ∧ (∀ k, start_n ≤ k < n → succeeds k)
  ∧ (∀ k, start_n ≤ k ≤ n →
       before_deadline (perf_counter_at clocks (ticks w))
         (S (ticks w) + Z.to_nat (k - start_n))).

End timing_loop.

(** What the [except] clauses of [run_for_duration] make of the way
    the [try] block was left: the value of [error_msg] afterwards, or
    the exception when no clause matches. *)
Definition handled (exit : timer.try_exit) : res (option string) :=
  match exit with
  | timer.Completed _ _ error_msg => Ret error_msg
  | timer.Excepted n _ e =>
      match first_match e (timer.except_clauses n) with
      | Some error_msg => Ret (Some error_msg)
      | None => Raise e
      end
  end.

(** The outcome of [run_for_duration] started at [start_n] in world
    [w] when the loop counts [m] iterations and then leaves by [exit]. *)
Definition run_outcome (clocks : Clocks) (start_n : Z) (w : World)
    (m : nat) (exit : timer.try_exit) : res timer.TimingResult * World :=
  let calls := EvCall <$> (seqZ start_n (Z.of_nat m) ++ last_call exit) in
  match handled exit with
  | Ret error_msg =>
      (Ret (timer.mkTimingResult
              (Z.of_nat m)
              (if 0 <? Z.of_nat m then start_n + Z.of_nat m - 1 else 0)
              (perf_counter_at clocks (ticks w + m + 2)
               - perf_counter_at clocks (ticks w))%Q
              error_msg),
       mkWorld (ticks w + m + 3) (nows w) (trace w ++ calls))
  | Raise e =>
      (Raise e, mkWorld (ticks w + m + 2) (nows w) (trace w ++ calls))
  end.

(** The error text the [except] clauses of [run_for_duration] give an
    exception deriving from [Exception], clause by clause. *)
Definition fault_tag (n : Z) (e : exn) : string :=
  if isinstance e "RecursionError" then "RecursionError at n=" +:+ str n
  else if isinstance e "MemoryError" then "MemoryError at n=" +:+ str n
  else if isinstance e "OverflowError" then "OverflowError at n=" +:+ str n
  else exn_type e +:+ " at n=" +:+ str n +:+ ": " +:+ exn_str e.

End reference.
Import reference.

(** ** Concrete clocks, callables and techniques used as instances *)
Module samples.
Import timer base_technique benchmark_runner.

(** A clock whose successive readings are 0.1 s apart, and a wall
    clock that advances by one unit per reading. *)
Definition steady_clock : Clocks :=
  mkClocks (λ k, (Z.of_nat k # 10)%Q) (λ k, Z.of_nat k).

Definition fresh : World := mkWorld 0 0 [].

Definition one_second : PrecisionTimer := mkPrecisionTimer 1%Q.
Definition no_time : PrecisionTimer := mkPrecisionTimer 0%Q.

(** The table validator, as [run_single] hands it to the timer. *)
Definition validate_with_table : Z → Z → res bool :=
  λ n result, Ret (validate_result n result).

(** A calculation that is right everywhere except at index 4. *)
Definition wrong_at_4 (n : Z) : res Z :=
  if n =? 4 then Ret 4 else compute_fibonacci_reference n.

(** A calculation that exhausts the call stack from index 3 on. *)
Definition deep_from_3 (n : Z) : res Z :=
  if n <? 3 then compute_fibonacci_reference n
  else Raise (RecursionError "maximum recursion depth exceeded").

(** The result and world of running [wrong_at_4] under validation. *)
Definition rejected_at_4_result : TimingResult :=
  mkTimingResult 4 3 ((6 # 10) - (0 # 10))%Q (Some "Validation failed at n=4").

Definition rejected_at_4_world : World :=
  mkWorld 7 0 [EvCall 0; EvCall 1; EvCall 2; EvCall 3; EvCall 4].

(** Techniques around the reference computation. *)
Definition reference_technique : FibonacciTechnique :=
  mkTechnique "Reference" "Simple linear iteration" "O(n)" "O(1)"
    compute_fibonacci_reference (Ret tt) (Ret tt).

Definition failing_setup : FibonacciTechnique :=
  mkTechnique "Failing setup" "Cannot warm up" "O(n)" "O(1)"
    compute_fibonacci_reference
    (Raise (Exn "RuntimeError" ["Exception"; "BaseException"] "warm-up failed"))
    (Ret tt).

Definition failing_teardown : FibonacciTechnique :=
  mkTechnique "Failing teardown" "Cannot release" "O(n)" "O(1)"
    compute_fibonacci_reference
    (Ret tt)
    (Raise (Exn "RuntimeError" ["Exception"; "BaseException"] "release failed")).

(** A runner with validation on and a budget of 0.25 s. *)
Definition quarter_second_runner : BenchmarkRunner :=
  BenchmarkRunner_init (25 # 100)%Q true false.

(** A summary with ties on [count] and on [max_n]. *)
Definition result_of (technique_name : string) (count max_n : Z) : BenchmarkResult :=
  mkBenchmarkResult technique_name "" count max_n 1%Q "O(n)" "O(1)" None 0.

Definition tied_summary : BenchmarkSummary :=
  mkBenchmarkSummary
    [ result_of "a" 5 9; result_of "b" 7 3; result_of "c" 5 3; result_of "d" 7 9 ]
    4%Q 0.

End samples.
Import samples.

(** ** More of Python: sequencing of raising calls, lists, integers *)
Module PyData.

(** Sequencing: a raised exception skips what follows. *)
#[global] Instance res_ret : MRet res := λ A a, Ret a.
#[global] Instance res_bind : MBind res := λ A B f m,
  match m with
  | Ret a => f a
  | Raise e => Raise e
  end.

Definition IndexError (msg : string) : exn :=
  Exn "IndexError" ["LookupError"; "Exception"; "BaseException"] msg.
Definition TypeError (msg : string) : exn :=
  Exn "TypeError" ["Exception"; "BaseException"] msg.

(** The message the interpreter gives the [RecursionError] it raises
    when the call stack is full. *)
Definition stack_overflow : exn :=
  RecursionError "maximum recursion depth exceeded".

(** [l[i]]: a negative index counts from the end, an index outside the
    list raises [IndexError]. *)
Definition getitem {A : Type} (l : list A) (i : Z) : res A :=
  let i := if i <? 0 then i + Z.of_nat (length l) else i in
  if (i <? 0) || (Z.of_nat (length l) <=? i)
  then Raise (IndexError "list index out of range")
  else
    match l !! Z.to_nat i with
    | Some x => Ret x
    | None => Raise (IndexError "list index out of range")
    end.

(** [l[i] = x] *)
Definition setitem {A : Type} (l : list A) (i : Z) (x : A) : res (list A) :=
  let i := if i <? 0 then i + Z.of_nat (length l) else i in
  if (i <? 0) || (Z.of_nat (length l) <=? i)
  then Raise (IndexError "list assignment index out of range")
  else Ret (<[Z.to_nat i := x]> l).

(** [[x] * n] *)
Definition repeat_list {A : Type} (x : A) (n : Z) : list A :=
  replicate (Z.to_nat n) x.

(** A [for] loop whose body can raise; [s] holds the variables the body
    assigns. *)
Fixpoint for_loop {S A : Type} (items : list A) (body : S → A → res S) (s : S)
  : res S :=
  match items with
  | [] => Ret s
  | x :: rest => s' ← body s x; for_loop rest body s'
  end.

(** [range(start, stop, step)]; a zero step raises [ValueError]. *)
Definition range_step (start stop step : Z) : res (list Z) :=
  if step =? 0 then Raise (ValueError "range() arg 3 must not be zero")
  else if 0 <? step
  then Ret ((λ k, start + k * step) <$> seqZ 0 ((stop - start + step - 1) / step))
  else Ret ((λ k, start + k * step) <$> seqZ 0 ((start - stop - step - 1) / (- step))).

(** [n.bit_length()] *)
Definition bit_length (n : Z) : Z :=
  if n =? 0 then 0 else Z.log2 (Z.abs n) + 1.

(** The truth value of an integer in a condition. *)
Definition truthy (n : Z) : bool := negb (n =? 0).

End PyData.
Import PyData.

(** ** techniques/*/fibonacci.py

    A recursive method takes the number [depth] of calls that may still
    be nested: each call uses one, and a call made when none is left
    raises [RecursionError], as the interpreter does at its recursion
    limit. *)
Module techniques.

(** *** 01_naive_recursion *)
Module naive_recursion.

Fixpoint calculate (depth : nat) (n : Z) : res Z :=
  match depth with
  | O => Raise stack_overflow
  | S depth =>
      if n <? 0 then Raise (ValueError "n must be non-negative")
      else if n <=? 1 then Ret n
      else
        a ← calculate depth (n - 1);
        b ← calculate depth (n - 2);
        Ret (a + b)
  end.

End naive_recursion.

(** *** 02_memoized_recursion *)
Module memoized_recursion.

(** The instance state is the table of the [lru_cache] wrapper [_fib]. *)
Record MemoizedRecursion := mkMemoizedRecursion {
  cache : gmap Z Z
}.


(** [self._fib(n)]: the wrapper answers from its table when it can and
    otherwise calls [_fib_impl], whose result it stores; a raised
    exception is not stored. *)
Fixpoint _fib (depth : nat) (cache : gmap Z Z) (n : Z) : res Z * gmap Z Z :=
  match cache !! n with
  | Some known => (Ret known, cache)
  | None =>
      match depth with
      | O => (Raise stack_overflow, cache)
      | S depth =>
          (* _fib_impl *)
          if n <=? 1 then (Ret n, <[n := n]> cache)
          else
            match _fib depth cache (n - 1) with
            | (Raise e, cache) => (Raise e, cache)
            | (Ret a, cache) =>
                match _fib depth cache (n - 2) with
                | (Raise e, cache) => (Raise e, cache)
                | (Ret b, cache) => (Ret (a + b), <[n := a + b]> cache)
                end
            end
      end
  end.

Definition calculate (depth : nat) (self : MemoizedRecursion) (n : Z)
  : res Z * MemoizedRecursion :=
  match depth with
  | O => (Raise stack_overflow, self)
  | S depth =>
      if n <? 0 then (Raise (ValueError "n must be non-negative"), self)
      else
        let '(r, cache) := _fib depth (cache self) n in
        (r, mkMemoizedRecursion cache)
  end.

Definition setup (self : MemoizedRecursion) : MemoizedRecursion :=
  mkMemoizedRecursion ∅.

Definition teardown (self : MemoizedRecursion) : MemoizedRecursion :=
  mkMemoizedRecursion ∅.

End memoized_recursion.

(** *** 03_dynamic_programming *)
Module dynamic_programming.

Definition calculate (n : Z) : res Z :=
  if n <? 0 then Raise (ValueError "n must be non-negative")
  else if n <=? 1 then Ret n
  else
    let dp := repeat_list 0 (n + 1) in
    dp ← setitem dp 0 0;
    dp ← setitem dp 1 1;
    dp ← for_loop (range 2 (n + 1))
           (λ dp i,
              x ← getitem dp (i - 1);
              y ← getitem dp (i - 2);
              setitem dp i (x + y))
           dp;
    getitem dp n.

End dynamic_programming.

(** *** 04_matrix_exponentiation *)
Module matrix_exponentiation.

(** [A[i][j]] *)
Definition entry (A : list (list Z)) (i j : Z) : res Z :=
  row ← getitem A i; getitem row j.

Definition _matrix_mult (A B : list (list Z)) : res (list (list Z)) :=
  c00 ← (a ← entry A 0 0; b ← entry B 0 0; c ← entry A 0 1; d ← entry B 1 0;
         Ret (a * b + c * d));
  c01 ← (a ← entry A 0 0; b ← entry B 0 1; c ← entry A 0 1; d ← entry B 1 1;
         Ret (a * b + c * d));
  c10 ← (a ← entry A 1 0; b ← entry B 0 0; c ← entry A 1 1; d ← entry B 1 0;
         Ret (a * b + c * d));
  c11 ← (a ← entry A 1 0; b ← entry B 0 1; c ← entry A 1 1; d ← entry B 1 1;
         Ret (a * b + c * d));
  Ret [ [ c00; c01 ]; [ c10; c11 ] ].

(** The [while n > 0] loop of [_matrix_pow]; each unit of [fuel] pays for
    one evaluation of its condition. *)
Fixpoint _matrix_pow_loop (fuel : nat) (result M : list (list Z)) (n : Z)
  : option (res (list (list Z))) :=
  match fuel with
  | O => None
  | S fuel =>
      if 0 <? n then
        match (if n mod 2 =? 1 then _matrix_mult result M else Ret result) with
        | Raise e => Some (Raise e)
        | Ret result =>
            match _matrix_mult M M with
            | Raise e => Some (Raise e)
            | Ret M => _matrix_pow_loop fuel result M (n / 2)
            end
        end
      else Some (Ret result)
  end.

Definition _matrix_pow (fuel : nat) (M : list (list Z)) (n : Z)
  : option (res (list (list Z))) :=
  _matrix_pow_loop fuel [[1; 0]; [0; 1]] M n.

Definition calculate (fuel : nat) (n : Z) : option (res Z) :=
  if n <? 0 then Some (Raise (ValueError "n must be non-negative"))
  else if n <=? 1 then Some (Ret n)
  else
    let F := [[1; 1]; [1; 0]] in
    match _matrix_pow fuel F (n - 1) with
    | None => None
    | Some (Raise e) => Some (Raise e)
    | Some (Ret result) => Some (entry result 0 0)
    end.

End matrix_exponentiation.

(** *** 06_generator_based *)
Module generator_based.

(** A suspended [fibonacci_generator]: the values of [a] and [b] with
    which it will next reach [yield a]. *)
Definition generator : Type := Z * Z.

Definition fibonacci_generator : generator := (0, 1).

(** [next(gen)]: the value yielded and the generator afterwards. *)
Definition next (gen : generator) : Z * generator :=
  let '(a, b) := gen in (a, (b, a + b)).

Definition calculate (n : Z) : res Z :=
  if n <? 0 then Raise (ValueError "n must be non-negative")
  else
    let gen := fibonacci_generator in
    let gen := fold_left (λ gen _, (next gen).2) (range 0 n) gen in
    Ret (next gen).1.

End generator_based.

(** *** 10_iterative_space_optimized *)
Module iterative_space_optimized.

Definition calculate (n : Z) : res Z :=
  if n <? 0 then Raise (ValueError "n must be non-negative")
  else if n <=? 1 then Ret n
  else
    let '(a, b) :=
      fold_left (λ '(a, b) _, (b, a + b)) (range 2 (n + 1)) (0, 1) in
    Ret b.

End iterative_space_optimized.

(** *** 11_fast_doubling *)
Module fast_doubling.

Fixpoint _fast_doubling (depth : nat) (n : Z) : res (Z * Z) :=
  match depth with
  | O => Raise stack_overflow
  | S depth =>
      if n =? 0 then Ret (0, 1)
      else
        '(a, b) ← _fast_doubling depth (n / 2);
        let c := a * (2 * b - a) in
        let d := a * a + b * b in
        if n mod 2 =? 0 then Ret (c, d) else Ret (d, c + d)
  end.

Definition calculate (depth : nat) (n : Z) : res Z :=
  match depth with
  | O => Raise stack_overflow
  | S depth =>
      if n <? 0 then Raise (ValueError "n must be non-negative")
      else r ← _fast_doubling depth n; Ret r.1
  end.

Definition calculate_iterative (n : Z) : res Z :=
  if n <? 0 then Raise (ValueError "n must be non-negative")
  else if n =? 0 then Ret 0
  else
    let highest_bit := bit_length n - 1 in
    bits ← range_step highest_bit (-1) (-1);
    let '(a, b) :=
      fold_left
        (λ '(a, b) i,
           let c := a * (2 * b - a) in
           let d := a * a + b * b in
           if truthy (Z.land (Z.shiftr n i) 1) then (d, c + d) else (c, d))
        bits (0, 1) in
    Ret a.

End fast_doubling.

(** *** 12_parallel_processing *)
Module parallel_processing.

Definition _fib_single (n : Z) : Z :=
  if n <=? 1 then n
  else
    let '(a, b) :=
      fold_left (λ '(a, b) _, (b, a + b)) (range 2 (n + 1)) (0, 1) in
    b.

Definition calculate (n : Z) : res Z :=
  if n <? 0 then Raise (ValueError "n must be non-negative")
  else Ret (_fib_single n).

End parallel_processing.

End techniques.

(** ** benchmarking/validators.py, continued *)
Module technique_validation.
Import base_technique.

(** What one pass of the loop body of [validate_technique] decides. *)
Inductive step : Type :=
| Next
| Break
| Return (answer : bool * option string).

Definition check_index (technique : FibonacciTechnique) (n : Z) : res step :=
  match KNOWN_FIBONACCI !! n with
  | None => Ret Next
  | Some expected =>
      match calculate technique n with
      | Ret result =>
          if negb (result =? expected)
          then Ret (Return (false,
                 Some ("F(" +:+ str n +:+ "): expected " +:+ str expected
                       +:+ ", got " +:+ str result)))
          else Ret Next
      | Raise e =>
          match first_match e
                  [ ("RecursionError", λ _,
                       if n <=? 10
                       then Return (false,
                              Some ("RecursionError at n=" +:+ str n +:+ " (too early)"))
                       else Break);
                    ("Exception", λ e,
                       Return (false,
                         Some ("Exception at n=" +:+ str n +:+ ": " +:+ exn_type e
                               +:+ ": " +:+ exn_str e))) ] with
          | Some s => Ret s
          | None => Raise e
          end
      end
  end.

Fixpoint validate_loop (technique : FibonacciTechnique) (indices : list Z)
  : res (bool * option string) :=
  match indices with
  | [] => Ret (true, None)
  | n :: rest =>
      s ← check_index technique n;
      match s with
      | Next => validate_loop technique rest
      | Break => Ret (true, None)
      | Return answer => Ret answer
      end
  end.

Definition validate_technique (technique : FibonacciTechnique) (test_range : Z)
  : res (bool * option string) :=
  largest ← Py.max (KNOWN_FIBONACCI_items.*1) id;
  validate_loop technique (range 0 (Z.min test_range (largest + 1))).

End technique_validation.

(** ** benchmarking/technique_loader.py: the interface check *)
Module technique_loader.
Import base_technique.

Definition _validate_technique_interface (technique : FibonacciTechnique) : res unit :=
  if bool_decide (name technique = "")
  then Raise (TypeError (name technique +:+ ": name must be a non-empty string"))
  else
    let tried : res unit :=
      result ← calculate technique 0;
      _ ← (if negb (result =? 0)
           then Raise (ValueError (name technique
                         +:+ ": calculate(0) should return 0, got " +:+ str result))
           else Ret tt);
      result ← calculate technique 1;
      if negb (result =? 1)
      then Raise (ValueError (name technique
                    +:+ ": calculate(1) should return 1, got " +:+ str result))
      else Ret tt in
    match tried with
    | Ret _ => Ret tt
    | Raise e =>
        match first_match e
                [ ("Exception", λ e,
                     TypeError (name technique +:+ ": calculate() method failed: "
                                +:+ exn_str e)) ] with
        | Some wrapped => Raise wrapped
        | None => Raise e
        end
    end.

End technique_loader.

(** ** benchmarking/benchmark_runner.py, continued *)
Module benchmark_batch.
Import timer base_technique benchmark_runner.

(** [BenchmarkResult.rate] *)
Definition rate (self : BenchmarkResult) : Q :=
  if Qlt_le_dec 0 (duration self)
  then (inject_Z (count self) / duration self)%Q
  else 0%Q.

(** [f"{n:,}"]: decimal digits in groups of three, separated by commas
    (character 44). *)
Fixpoint group_thousands (reversed_digits : list Ascii.ascii) : list Ascii.ascii :=
  match reversed_digits with
  | a :: b :: c :: ((_ :: _) as rest) =>
      a :: b :: c :: Ascii.ascii_of_nat 44 :: group_thousands rest
  | _ => reversed_digits
  end.

Definition format_thousands (n : Z) : string :=
  let digits := String.list_ascii_of_string (str (Z.abs n)) in
  let grouped := String.string_of_list_ascii (reverse (group_thousands (reverse digits))) in
  if n <? 0 then "-" +:+ grouped else grouped.

(** How floating-point numbers are printed: [f"{x}"] and [f"{x:.2f}"]. *)
Record FloatFormat := mkFloatFormat {
  float_str : Q → string;
  float_fixed2 : Q → string
}.

Section run_all.
Variable clocks : Clocks.
Variable fmt : FloatFormat.
Variable self : BenchmarkRunner.

(** [print(text, end=...)] when [self.verbose] holds: [stdout] is the
    list of texts written so far. *)
Definition progress (text : string) (stdout : list string) : list string :=
  if verbose self then stdout ++ [text] else stdout.

(** The newline character. *)
Definition nl : string := String (Ascii.ascii_of_nat 10) EmptyString.

(** The [for] loop of [run_all]; [i] is the position counted from one,
    [total] is [len(techniques)]. *)
Fixpoint run_all_loop (fuel : nat) (i total : Z) (techniques : list FibonacciTechnique)
    (results : list BenchmarkResult) (w : World) (stdout : list string)
  : option (res (list BenchmarkResult) * World * list string) :=
  match techniques with
  | [] => Some (Ret results, w, stdout)
  | technique :: rest =>
      let stdout :=
        progress ("[" +:+ str i +:+ "/" +:+ str total +:+ "] Benchmarking: "
                  +:+ name technique +:+ "..." +:+ " ") stdout in
      match run_single clocks self fuel technique w with
      | None => None
      | Some (Raise e, w) => Some (Raise e, w, stdout)
      | Some (Ret result, w) =>
          let results := results ++ [result] in
          let stdout :=
            match error result with
            | None =>
                progress (format_thousands (count result) +:+ " numbers (max n="
                          +:+ format_thousands (max_n result) +:+ ")" +:+ nl) stdout
            | Some msg => progress ("ERROR: " +:+ msg +:+ nl) stdout
            end in
          run_all_loop fuel (i + 1) total rest results w stdout
      end
  end.

(** [run_all(techniques)]; [load_all_techniques] stands for the outcome
    of the loader's function of that name, called when no list is given. *)
Definition run_all (load_all_techniques : res (list FibonacciTechnique))
    (fuel : nat) (techniques : option (list FibonacciTechnique))
    (w : World) (stdout : list string)
  : option (res BenchmarkSummary * World * list string) :=
  let '(start_time, w) := perf_counter clocks w in
  let loaded :=
    match techniques with
    | Some techniques => (Ret techniques, stdout)
    | None => (load_all_techniques, progress ("Loading techniques..." +:+ nl) stdout)
    end in
  match loaded with
  | (Raise e, stdout) => Some (Raise e, w, stdout)
  | (Ret techniques, stdout) =>
      let total := Z.of_nat (length techniques) in
      let stdout :=
        progress ("Found " +:+ str total +:+ " techniques to benchmark" +:+ nl) stdout in
      let stdout :=
        progress ("Running each technique for " +:+ float_str fmt (runner_duration self)
                  +:+ " second(s)..." +:+ nl +:+ nl) stdout in
      match run_all_loop fuel 1 total techniques [] w stdout with
      | None => None
      | Some (Raise e, w, stdout) => Some (Raise e, w, stdout)
      | Some (Ret results, w, stdout) =>
          let '(now, w) := perf_counter clocks w in
          let total_duration := (now - start_time)%Q in
          let stdout :=
            progress (nl +:+ "Completed all benchmarks in "
                      +:+ float_fixed2 fmt total_duration +:+ " seconds" +:+ nl) stdout in
          let '(timestamp, w) := datetime_now clocks w in
          Some (Ret (mkBenchmarkSummary results total_duration timestamp), w, stdout)
      end
  end.

End run_all.

End benchmark_batch.

(** ** Reference notions for the techniques *)
Module technique_reference.

(** 2x2 integer matrices as four entries, row by row, with their product,
    identity and powers; [rows] gives the nested-list form the code uses. *)
Definition M2 : Type := Z * Z * Z * Z.

Definition rows (M : M2) : list (list Z) :=
  let '(a, b, c, d) := M in [[a; b]; [c; d]].

Definition m2_mul (A B : M2) : M2 :=
  let '(a, b, c, d) := A in
  let '(e, f, g, h) := B in
  (a * e + b * g, a * f + b * h, c * e + d * g, c * f + d * h).

Definition m2_one : M2 := (1, 0, 0, 1).

Fixpoint m2_pow (k : nat) (M : M2) : M2 :=
  match k with
  | O => m2_one
  | S k => m2_mul M (m2_pow k M)
  end.



End technique_reference.
Import technique_reference.

(** ** More concrete instances *)
Module more_samples.
Import timer base_technique benchmark_runner benchmark_batch.

(** A calculation that exhausts the call stack from index 12 on. *)
Definition deep_from_12 (n : Z) : res Z :=
  if n <? 12 then compute_fibonacci_reference n else Raise stack_overflow.

(** A calculation interrupted from the keyboard at its first call. *)
Definition interrupted (n : Z) : res Z := Raise (KeyboardInterrupt "").

Definition technique_of (name : string) (calculate : Z → res Z) : FibonacciTechnique :=
  mkTechnique name "" "O(n)" "O(1)" calculate (Ret tt) (Ret tt).

Definition quarter_second : PrecisionTimer := mkPrecisionTimer (25 # 100)%Q.



(** The benchmark of [failing_teardown] under a quarter second. *)
Definition failing_teardown_result : BenchmarkResult :=
  mkBenchmarkResult "Failing teardown" "Cannot release" 2 1 ((4 # 10) - (0 # 10))%Q
    "O(n)" "O(1)" None 0.

(** The world that benchmark, and that of [reference_technique], leave. *)
Definition benchmarked_world : World :=
  mkWorld 5 1 [EvSetup; EvCall 0; EvCall 1; EvTeardown].

(** The benchmark of [reference_technique] under a quarter second. *)
Definition reference_result : BenchmarkResult :=
  mkBenchmarkResult "Reference" "Simple linear iteration" 2 1 ((4 # 10) - (0 # 10))%Q
    "O(n)" "O(1)" None 0.

(** A float format that prints nothing. *)
Definition blank_format : FloatFormat := mkFloatFormat (λ _, "") (λ _, "").

End more_samples.
Import more_samples.

(** * Properties *)

(** ** The reference validator *)
Section validator_facts.

Lemma fib_spec_step (n : nat) : fib_spec (S (S n)) = fib_spec (S n) + fib_spec n.
Proof. reflexivity. Qed.

(** One pass of the loop body [a, b = b, a + b] moves a window of two
    consecutive Fibonacci numbers one place up, whatever the loop
    variable is. *)
Lemma fib_window (l : list Z) (i : nat) :
  fold_left (λ '(a, b) (_ : Z), (b, a + b)) l (fib_spec i, fib_spec (S i))
  = (fib_spec (i + length l), fib_spec (S (i + length l))).
Proof.
  revert i. induction l as [|x l IH]; intros i.
  - cbn [fold_left length]. by rewrite Nat.add_0_r.
  - cbn [fold_left length].
    replace (fib_spec i + fib_spec (S i)) with (fib_spec (S (S i)))
      by (rewrite fib_spec_step; lia).
    rewrite IH. by replace (S i + length l)%nat with (i + S (length l))%nat by lia.
Qed.

Lemma range_length (lo hi : Z) : length (range lo hi) = Z.to_nat (hi - lo).
Proof. unfold range. apply length_seqZ. Qed.

Lemma compute_fibonacci_reference_negative (n : Z) :
  n < 0 → compute_fibonacci_reference n = Raise (ValueError "n must be non-negative").
Proof.
  intros Hn. unfold compute_fibonacci_reference.
  by destruct (Z.ltb_spec n 0); [|lia].
Qed.

Lemma compute_fibonacci_reference_fib (n : Z) :
  0 ≤ n → compute_fibonacci_reference n = Ret (fib_spec (Z.to_nat n)).
Proof.
  intros Hn. unfold compute_fibonacci_reference.
  destruct (Z.ltb_spec n 0); [lia|].
  destruct (Z.leb_spec n 1).
  - assert (n = 0 ∨ n = 1) as [-> | ->] by lia; reflexivity.
  - pose proof (fib_window (range 2 (n + 1)) 0) as Hw.
    change (fib_spec 0, fib_spec 1) with (0, 1) in Hw.
    rewrite Hw, range_length.
    do 2 f_equal. lia.
Qed.

Lemma reference_agrees_on_items :
  forallb agrees_with_table KNOWN_FIBONACCI_items = true.
Proof. vm_compute. reflexivity. Qed.

Lemma known_lookup_item (k v : Z) :
  KNOWN_FIBONACCI !! k = Some v → (k, v) ∈ KNOWN_FIBONACCI_items.
Proof. apply elem_of_list_to_map_2. Qed.

Lemma compute_fibonacci_reference_table (k v : Z) :
  KNOWN_FIBONACCI !! k = Some v → compute_fibonacci_reference k = Ret v.
Proof.
  intros Hk%known_lookup_item%list_elem_of_In.
  pose proof reference_agrees_on_items as Hall.
  rewrite forallb_forall in Hall. specialize (Hall _ Hk).
  unfold agrees_with_table in Hall. cbn [fst snd] in Hall.
  destruct (compute_fibonacci_reference k) as [r|e]; [|done].
  apply Z.eqb_eq in Hall. by subst.
Qed.

(** C6: [validate_result n v] is the comparison of [v] with the
    tabulated value when [n] is a key of [KNOWN_FIBONACCI], and is
    [true] for every [n] that is not a key, whatever [v] is. *)
Theorem C6_validate_result_pass_when_unknown :
  (∀ n v : Z, n ∈ dom KNOWN_FIBONACCI →
     ∃ known, KNOWN_FIBONACCI !! n = Some known
              ∧ validate_result n v = bool_decide (v = known))
  ∧ (∀ n v : Z, n ∉ dom KNOWN_FIBONACCI → validate_result n v = true).
Proof.
  split; intros n v Hn.
  - apply elem_of_dom in Hn as [known Hk]. exists known. split; [done|].
    unfold validate_result. rewrite Hk.
    destruct (Z.eqb_spec v known); [by rewrite bool_decide_true|by rewrite bool_decide_false].
  - apply not_elem_of_dom in Hn. unfold validate_result. by rewrite Hn.
Qed.

(** C7: [compute_fibonacci_reference] raises [ValueError] on every
    negative index, returns the Fibonacci number F(n) on every index
    [n >= 0], and agrees with every entry of [KNOWN_FIBONACCI]. *)
Theorem C7_compute_fibonacci_reference_correct :
  (∀ n : Z, n < 0 →
     compute_fibonacci_reference n = Raise (ValueError "n must be non-negative"))
  ∧ (∀ n : Z, 0 ≤ n → compute_fibonacci_reference n = Ret (fib_spec (Z.to_nat n)))
  ∧ (∀ k v : Z, KNOWN_FIBONACCI !! k = Some v → compute_fibonacci_reference k = Ret v).
Proof.
  split; [|split].
  - apply compute_fibonacci_reference_negative.
  - apply compute_fibonacci_reference_fib.
  - apply compute_fibonacci_reference_table.
Qed.

Lemma C6_witness :
  (∃ known, KNOWN_FIBONACCI !! 10 = Some known
            ∧ validate_result 10 56 = bool_decide (56 = known))
  ∧ validate_result 21 12345 = true.
Proof.
  split.
  - apply (proj1 C6_validate_result_pass_when_unknown 10 56).
    apply elem_of_dom. exists 55. vm_compute. reflexivity.
  - apply (proj2 C6_validate_result_pass_when_unknown 21 12345).
    apply not_elem_of_dom. vm_compute. reflexivity.
Defined.

Lemma C7_witness :
  compute_fibonacci_reference (-1) = Raise (ValueError "n must be non-negative")
  ∧ compute_fibonacci_reference 10 = Ret (fib_spec (Z.to_nat 10))
  ∧ compute_fibonacci_reference 100 = Ret 354224848179261915075.
Proof.
  destruct C7_compute_fibonacci_reference_correct as (Hneg & Hfib & Htable).
  split; [|split].
  - apply Hneg. lia.
  - apply Hfib. lia.
  - apply Htable. vm_compute. reflexivity.
Defined.

Example validate_result_known_right : validate_result 10 55 = true.
Proof. vm_compute. reflexivity. Qed.

Example validate_result_known_wrong : validate_result 10 56 = false.
Proof. vm_compute. reflexivity. Qed.

Example validate_result_unknown : validate_result 21 0 = true.
Proof. vm_compute. reflexivity. Qed.

Example compute_fibonacci_reference_30 : compute_fibonacci_reference 30 = Ret 832040.
Proof. vm_compute. reflexivity. Qed.

End validator_facts.

(** ** The timing loop *)
Section timer_facts.
Import timer.
Context {V : Type}.
Variable clocks : Clocks.
Variable self : PrecisionTimer.
Variable func : Z → res V.
Variable validate_func : option (Z → V → res bool).

Local Abbreviation loop := (while_loop clocks self func validate_func).
Local Abbreviation run := (run_for_duration clocks self func validate_func).
Local Abbreviation open := (before_deadline clocks self).
Local Abbreviation ok := (succeeds func validate_func).
Local Abbreviation exits := (loop_exit clocks self func validate_func).

(** The world the loop leaves behind after [m] counted iterations. *)
Local Abbreviation world_after w n m exit :=
  (mkWorld (ticks w + m + 1) (nows w)
     (trace w ++ (EvCall <$> (seqZ n (Z.of_nat m) ++ last_call exit)))).

Lemma seqZ_S (n : Z) (m : nat) :
  seqZ n (Z.of_nat (S m)) = n :: seqZ (n + 1) (Z.of_nat m).
Proof.
  rewrite seqZ_cons by lia. f_equal. f_equal; lia.
Qed.

Lemma world_after_0 (w : World) (n : Z) (calls : list Z) :
  mkWorld (S (ticks w)) (nows w) (trace w ++ (EvCall <$> calls))
  = mkWorld (ticks w + 0 + 1) (nows w)
      (trace w ++ (EvCall <$> (seqZ n (Z.of_nat 0) ++ calls))).
Proof. f_equal. lia. Qed.

Lemma world_after_S (w : World) (n : Z) (m : nat) (calls : list Z) :
  mkWorld (S (ticks w) + m + 1) (nows w)
    ((trace w ++ [EvCall n]) ++ (EvCall <$> (seqZ (n + 1) (Z.of_nat m) ++ calls)))
  = mkWorld (ticks w + S m + 1) (nows w)
      (trace w ++ (EvCall <$> (seqZ n (Z.of_nat (S m)) ++ calls))).
Proof.
  rewrite seqZ_S. f_equal; [lia|].
  by rewrite <- app_assoc.
Qed.

(** One counted iteration. *)
Lemma loop_step (fuel : nat) (start_time : Q) (n count : Z) (w : World) :
  open start_time (ticks w) → ok n →
  loop (S fuel) start_time n count w
  = loop fuel start_time (n + 1) (count + 1)
      (mkWorld (S (ticks w)) (nows w) (trace w ++ [EvCall n])).
Proof.
  intros Hopen (v & Hv & Hacc). cbn [while_loop perf_counter].
  destruct (Qlt_le_dec _ _) as [_|Hle].
  - rewrite Hv. unfold accepted in Hacc.
    destruct validate_func as [validate|]; [rewrite Hacc|]; reflexivity.
  - exfalso. unfold before_deadline in Hopen. lra.
Qed.

(** The last evaluation of the loop condition. *)
Lemma loop_stop (fuel : nat) (start_time : Q) (n count : Z) (w : World) exit :
  exits start_time n count (ticks w) exit →
  loop (S fuel) start_time n count w
  = Some (exit, mkWorld (S (ticks w)) (nows w)
                  (trace w ++ (EvCall <$> last_call exit))).
Proof.
  intros Hexit. cbn [while_loop perf_counter].
  destruct Hexit as [Hclosed|Hopen (v & validate & Hv & Hvf & Hval)|e Hopen Hraise];
    unfold before_deadline in *;
    (destruct (Qlt_le_dec _ _) as [Hlt|Hle]; [|try (exfalso; lra)]).
  - done.
  - cbn. by rewrite app_nil_r.
  - by rewrite Hv, Hvf, Hval.
  - destruct Hraise as [Hv|(v & validate & Hv & Hvf & Hval)].
    + by rewrite Hv.
    + by rewrite Hv, Hvf, Hval.
Qed.

(** At each evaluation of the loop condition the iteration is either
    counted or the last one. *)
Lemma iteration_cases (start_time : Q) (n count : Z) (tick : nat) :
  (open start_time tick ∧ ok n) ∨ (∃ exit, exits start_time n count tick exit).
Proof.
  destruct (Qlt_le_dec (perf_counter_at clocks tick - start_time) (duration self))
    as [Hlt|Hle].
  - destruct (func n) as [v|e] eqn:Hv.
    + unfold succeeds, accepted, rejected_at.
      destruct validate_func as [validate|] eqn:Hvf.
      * destruct (validate n v) as [[|]|e] eqn:Hval.
        -- left. split; [done|]. by exists v.
        -- right. eexists. apply exit_rejected; [done|]. by exists v, validate.
        -- right. exists (Excepted n count e). apply exit_raised; [done|].
           right. by exists v, validate.
      * left. split; [done|]. by exists v.
    + right. exists (Excepted n count e). apply exit_raised; [done|by left].
  - right. exists (Completed n count None). apply exit_deadline.
    unfold before_deadline. lra.
Qed.

(** Every result of the loop is reached by some number [m] of counted
    iterations followed by one of the three exits. *)
Lemma loop_sound (fuel : nat) :
  ∀ (start_time : Q) (n count : Z) (w : World) exit w',
    loop fuel start_time n count w = Some (exit, w') →
    ∃ m : nat,
      (m < fuel)%nat
      ∧ (∀ j : nat, (j < m)%nat →
           open start_time (ticks w + j) ∧ ok (n + Z.of_nat j))
      ∧ exits start_time (n + Z.of_nat m) (count + Z.of_nat m) (ticks w + m) exit
      ∧ w' = world_after w n m exit.
Proof.
  induction fuel as [|fuel IH]; intros start_time n count w exit w' Hrun;
    [discriminate|].
  destruct (iteration_cases start_time n count (ticks w))
    as [[Hopen Hok]|[exit0 Hexit]].
  - rewrite loop_step in Hrun by done.
    apply IH in Hrun as (m & Hm & Hpre & Hex & ->). cbn [ticks nows trace] in *.
    exists (S m). split; [lia|]. split; [|split].
    + intros [|j] Hj.
      * by rewrite Nat.add_0_r, Z.add_0_r.
      * destruct (Hpre j) as [Ho Hs]; [lia|].
        replace (ticks w + S j)%nat with (S (ticks w) + j)%nat by lia.
        by replace (n + Z.of_nat (S j)) with (n + 1 + Z.of_nat j) by lia.
    + replace (ticks w + S m)%nat with (S (ticks w) + m)%nat by lia.
      replace (n + Z.of_nat (S m)) with (n + 1 + Z.of_nat m) by lia.
      by replace (count + Z.of_nat (S m)) with (count + 1 + Z.of_nat m) by lia.
    + apply world_after_S.
  - rewrite (loop_stop _ _ _ _ _ _ Hexit) in Hrun. injection Hrun as <- <-.
    exists 0%nat. split; [lia|]. split; [intros; lia|]. split.
    + by rewrite !Z.add_0_r, Nat.add_0_r.
    + apply world_after_0.
Qed.

(** Conversely, [m] counted iterations followed by an exit are what the
    loop computes, given fuel for [m + 1] evaluations of its condition. *)
Lemma loop_complete (m : nat) :
  ∀ (fuel : nat) (start_time : Q) (n count : Z) (w : World) exit,
    (m < fuel)%nat →
    (∀ j : nat, (j < m)%nat →
       open start_time (ticks w + j) ∧ ok (n + Z.of_nat j)) →
    exits start_time (n + Z.of_nat m) (count + Z.of_nat m) (ticks w + m) exit →
    loop fuel start_time n count w = Some (exit, world_after w n m exit).
Proof.
  induction m as [|m IH]; intros [|fuel] start_time n count w exit Hfuel Hpre Hexit;
    try lia.
  - rewrite !Z.add_0_r, Nat.add_0_r in Hexit.
    rewrite (loop_stop _ _ _ _ _ _ Hexit). f_equal. f_equal. apply world_after_0.
  - destruct (Hpre 0%nat) as [Hopen Hok]; [lia|].
    rewrite Nat.add_0_r in Hopen. rewrite Z.add_0_r in Hok.
    rewrite loop_step by done.
    rewrite (IH fuel start_time (n + 1) (count + 1) _ exit).
    + cbn [ticks nows trace]. f_equal. f_equal. apply world_after_S.
    + lia.
    + intros j Hj. cbn [ticks]. destruct (Hpre (S j)) as [Ho Hs]; [lia|].
      replace (S (ticks w) + j)%nat with (ticks w + S j)%nat by lia.
      by replace (n + 1 + Z.of_nat j) with (n + Z.of_nat (S j)) by lia.
    + cbn [ticks].
      replace (S (ticks w) + m)%nat with (ticks w + S m)%nat by lia.
      replace (n + 1 + Z.of_nat m) with (n + Z.of_nat (S m)) by lia.
      by replace (count + 1 + Z.of_nat m) with (count + Z.of_nat (S m)) by lia.
Qed.

(** Termination: once the clock is past the deadline at some reading,
    fuel for that many evaluations of the condition is enough. *)
Lemma loop_terminates (m : nat) :
  ∀ (fuel : nat) (start_time : Q) (n count : Z) (w : World),
    (m < fuel)%nat →
    ¬ open start_time (ticks w + m) →
    ∃ out, loop fuel start_time n count w = Some out.
Proof.
  induction m as [|m IH]; intros [|fuel] start_time n count w Hfuel Hclosed;
    try lia.
  - rewrite Nat.add_0_r in Hclosed.
    eexists. apply loop_stop. by apply exit_deadline.
  - destruct (iteration_cases start_time n count (ticks w))
      as [[Hopen Hok]|[exit Hexit]].
    + rewrite loop_step by done. apply IH; [lia|]. cbn [ticks].
      by replace (S (ticks w) + m)%nat with (ticks w + S m)%nat by lia.
    + eexists. by apply loop_stop.
Qed.

(** *** [run_for_duration] as a whole *)

(** Brings the clock-reading counts of the goal to successor form. *)
Local Ltac normalise_ticks w m :=
  replace (ticks w + m + 2)%nat with (S (ticks w + m + 1)) by lia;
  replace (ticks w + m + 3)%nat with (S (S (ticks w + m + 1))) by lia.

Lemma run_sound (fuel : nat) (start_n : Z) (w : World) out :
  run fuel start_n w = Some out →
  ∃ (m : nat) exit,
    (m < fuel)%nat
    ∧ (∀ j : nat, (j < m)%nat →
         open (perf_counter_at clocks (ticks w)) (S (ticks w) + j)
         ∧ ok (start_n + Z.of_nat j))
    ∧ exits (perf_counter_at clocks (ticks w))
        (start_n + Z.of_nat m) (Z.of_nat m) (S (ticks w) + m) exit
    ∧ out = run_outcome clocks start_n w m exit.
Proof.
  unfold run_for_duration. cbn [perf_counter].
  destruct (loop _ _ _ _ _) as [[exit w2]|] eqn:Hloop; [|discriminate].
  apply loop_sound in Hloop as (m & Hm & Hpre & Hex & ->).
  cbn [ticks nows trace] in *. rewrite Z.add_0_l in Hex.
  intros Hout. exists m, exit. repeat split; try done; try apply Hpre; try done.
  unfold run_outcome.
  destruct Hex; cbn [handled last_call] in *.
  - injection Hout as <-. cbn [perf_counter ticks nows trace]. by normalise_ticks w m.
  - injection Hout as <-. cbn [perf_counter ticks nows trace]. by normalise_ticks w m.
  - destruct (first_match e _).
    + injection Hout as <-. cbn [perf_counter ticks nows trace]. by normalise_ticks w m.
    + injection Hout as <-. by normalise_ticks w m.
Qed.

Lemma run_complete (fuel : nat) (start_n : Z) (w : World) (m : nat) exit :
  (m < fuel)%nat →
  (∀ j : nat, (j < m)%nat →
     open (perf_counter_at clocks (ticks w)) (S (ticks w) + j)
     ∧ ok (start_n + Z.of_nat j)) →
  exits (perf_counter_at clocks (ticks w))
    (start_n + Z.of_nat m) (Z.of_nat m) (S (ticks w) + m) exit →
  run fuel start_n w = Some (run_outcome clocks start_n w m exit).
Proof.
  intros Hm Hpre Hex.
  unfold run_for_duration. cbn [perf_counter].
  rewrite (loop_complete m _ _ _ _ _ exit); cbn [ticks nows trace]; try done.
  unfold run_outcome.
  destruct Hex; cbn [handled last_call] in *.
  - cbn [perf_counter ticks nows trace]. by normalise_ticks w m.
  - cbn [perf_counter ticks nows trace]. by normalise_ticks w m.
  - destruct (first_match e _).
    + cbn [perf_counter ticks nows trace]. by normalise_ticks w m.
    + by normalise_ticks w m.
Qed.

(** If the clock passes the deadline at some reading, enough fuel makes
    [run_for_duration] return. *)
Lemma run_terminates (fuel : nat) (start_n : Z) (w : World) (m : nat) :
  (m < fuel)%nat →
  ¬ open (perf_counter_at clocks (ticks w)) (S (ticks w) + m) →
  ∃ out, run fuel start_n w = Some out.
Proof.
  intros Hm Hclosed. unfold run_for_duration. cbn [perf_counter].
  destruct (loop_terminates m fuel (perf_counter_at clocks (ticks w)) start_n 0
              (mkWorld (S (ticks w)) (nows w) (trace w)) Hm Hclosed)
    as [[exit w2] ->].
  destruct exit as [n c msg|n c e]; [|destruct (first_match e _)]; cbn; eauto.
Qed.

(** The outcome does not depend on how much fuel was given, once there
    is enough of it. *)
Lemma run_fuel_irrelevant (fuel fuel' : nat) (start_n : Z) (w : World) out :
  run fuel start_n w = Some out →
  (fuel ≤ fuel')%nat →
  run fuel' start_n w = Some out.
Proof.
  intros (m & exit & Hm & Hpre & Hexit & ->)%run_sound Hle.
  apply run_complete; [lia|done..].
Qed.

(** *** Auxiliary facts for the statements below *)

Lemma seqZ_snoc_nat (n : Z) (m : nat) :
  seqZ n (Z.of_nat m) ++ [n + Z.of_nat m] = seqZ n (Z.of_nat m + 1).
Proof.
  rewrite seqZ_app by lia. reflexivity.
Qed.

Lemma first_match_tag (n : Z) (e : exn) (msg : string) :
  first_match e (except_clauses n) = Some msg → msg = fault_tag n e.
Proof.
  unfold fault_tag. cbn [first_match except_clauses].
  destruct (isinstance e "RecursionError"); [congruence|].
  destruct (isinstance e "MemoryError"); [congruence|].
  destruct (isinstance e "OverflowError"); [congruence|].
  destruct (isinstance e "Exception"); congruence.
Qed.

Lemma first_match_Exception (n : Z) (e : exn) :
  isinstance e "Exception" = true →
  first_match e (except_clauses n) = Some (fault_tag n e).
Proof.
  intros HE. unfold fault_tag. cbn [first_match except_clauses].
  destruct (isinstance e "RecursionError"); [done|].
  destruct (isinstance e "MemoryError"); [done|].
  destruct (isinstance e "OverflowError"); [done|].
  by rewrite HE.
Qed.

(** [call_is_made] in terms of the number of iterations counted before. *)
Lemma call_is_made_prefix (w : World) (start_n n : Z) :
  call_is_made clocks self func validate_func w start_n n →
  ∃ m : nat,
    m = Z.to_nat (n - start_n)
    ∧ start_n + Z.of_nat m = n
    ∧ (∀ j : nat, (j < m)%nat →
         open (perf_counter_at clocks (ticks w)) (S (ticks w) + j)
         ∧ ok (start_n + Z.of_nat j))
    ∧ open (perf_counter_at clocks (ticks w)) (S (ticks w) + m).
Proof.
  intros (Hle & Hok & Hopen). exists (Z.to_nat (n - start_n)).
  split; [done|]. split; [lia|]. split.
  - intros j Hj. split.
    + specialize (Hopen (start_n + Z.of_nat j)).
      replace (Z.to_nat (start_n + Z.of_nat j - start_n)) with j in Hopen by lia.
      apply Hopen. lia.
    + apply Hok. lia.
  - apply Hopen. lia.
Qed.

(** *** The claims about [run_for_duration] *)

(** C1: when the call at index [n] is made and the validation predicate
    answers [False] for it, [run_for_duration] returns at once: the
    calls made are exactly those at [start_n .. n], the call at [n] is
    not counted ([count = n - start_n], so 4 when [start_n = 0] and
    [n = 4]), and [error] is ["Validation failed at n=<n>"]. *)
Theorem C1_validation_failure_halts_uncounted
    (fuel : nat) (start_n n : Z) (w : World) (validate : Z → V → res bool) (v : V) :
  call_is_made clocks self func validate_func w start_n n →
  (Z.to_nat (n - start_n) < fuel)%nat →
  validate_func = Some validate →
  func n = Ret v →
  validate n v = Ret false →
  ∃ r w',
    run fuel start_n w = Some (Ret r, w')
    ∧ count r = n - start_n
    ∧ error r = Some ("Validation failed at n=" +:+ str n)
    ∧ trace w' = trace w ++ (EvCall <$> seqZ start_n (n - start_n + 1)).
Proof.
  intros (m & Hm & Hn & Hpre & Hopen)%call_is_made_prefix Hfuel Hvf Hv Hval.
  rewrite <- Hm in Hfuel.
  assert (Hexit : exits (perf_counter_at clocks (ticks w))
                    (start_n + Z.of_nat m) (Z.of_nat m) (S (ticks w) + m)
                    (Completed (start_n + Z.of_nat m) (Z.of_nat m)
                       (Some ("Validation failed at n=" +:+ str (start_n + Z.of_nat m))))).
  { apply exit_rejected; [done|]. exists v, validate. by rewrite Hn. }
  rewrite (run_complete _ _ _ _ _ Hfuel Hpre Hexit).
  unfold run_outcome. cbn [handled last_call].
  eexists _, _. split; [reflexivity|]. cbn [count error trace].
  split; [lia|]. split; [by rewrite Hn|].
  rewrite seqZ_snoc_nat. do 3 f_equal. lia.
Qed.

(** C2, as the code has it: when the call at index [n] is made and the
    calculation raises an exception deriving from [Exception],
    [run_for_duration] stops there (no later call, the call is not
    counted) and [error] is chosen by the first clause that matches:
    ["RecursionError at n=<n>"], ["MemoryError at n=<n>"],
    ["OverflowError at n=<n>"], and for anything else
    ["<type name> at n=<n>: <message>"]. *)
Theorem C2_fault_classified_by_first_clause
    (fuel : nat) (start_n n : Z) (w : World) (e : exn) :
  call_is_made clocks self func validate_func w start_n n →
  (Z.to_nat (n - start_n) < fuel)%nat →
  func n = Raise e →
  isinstance e "Exception" = true →
  ∃ r w',
    run fuel start_n w = Some (Ret r, w')
    ∧ count r = n - start_n
    ∧ error r = Some (fault_tag n e)
    ∧ trace w' = trace w ++ (EvCall <$> seqZ start_n (n - start_n + 1)).
Proof.
  intros (m & Hm & Hn & Hpre & Hopen)%call_is_made_prefix Hfuel Hraise HE.
  rewrite <- Hm in Hfuel.
  assert (Hexit : exits (perf_counter_at clocks (ticks w))
                    (start_n + Z.of_nat m) (Z.of_nat m) (S (ticks w) + m)
                    (Excepted (start_n + Z.of_nat m) (Z.of_nat m) e)).
  { apply exit_raised; [done|]. left. by rewrite Hn. }
  rewrite (run_complete _ _ _ _ _ Hfuel Hpre Hexit).
  unfold run_outcome. cbn [handled last_call].
  rewrite first_match_Exception by done.
  eexists _, _. split; [reflexivity|]. cbn [count error trace].
  split; [lia|]. split; [by rewrite Hn|].
  rewrite seqZ_snoc_nat. do 3 f_equal. lia.
Qed.

(** C3: in every [TimingResult] that [run_for_duration] returns,
    [max_n = start_n + count - 1] when [count > 0] and [max_n = 0] when
    [count = 0], whichever way the loop was left. *)
Theorem C3_max_n_follows_count
    (fuel : nat) (start_n : Z) (w : World) (r : TimingResult) (w' : World) :
  run fuel start_n w = Some (Ret r, w') →
  0 ≤ count r
  ∧ (0 < count r → max_n r = start_n + count r - 1)
  ∧ (count r = 0 → max_n r = 0).
Proof.
  intros (m & exit & _ & _ & _ & Hout)%run_sound.
  unfold run_outcome in Hout.
  destruct (handled exit) as [error_msg|e]; [|discriminate].
  injection Hout as -> ->. cbn [count max_n].
  split; [lia|]. split; intros Hc.
  - by destruct (Z.ltb_spec 0 (Z.of_nat m)); [|lia].
  - by destruct (Z.ltb_spec 0 (Z.of_nat m)); [lia|].
Qed.

(** C8: with a duration that is not positive, and a clock that has not
    gone backwards between the start reading and the first evaluation
    of the loop condition, [run_for_duration] makes no call at all and
    returns [count = 0], [max_n = 0] and no error. *)
Theorem C8_non_positive_duration_no_call
    (fuel : nat) (start_n : Z) (w : World) :
  (duration self <= 0)%Q →
  (perf_counter_at clocks (ticks w) <= perf_counter_at clocks (S (ticks w)))%Q →
  (0 < fuel)%nat →
  ∃ r w',
    run fuel start_n w = Some (Ret r, w')
    ∧ count r = 0 ∧ max_n r = 0 ∧ error r = None
    ∧ trace w' = trace w
    ∧ ticks w' = (ticks w + 3)%nat.
Proof.
  intros Hdur Hmono Hfuel.
  assert (Hexit : exits (perf_counter_at clocks (ticks w))
                    (start_n + Z.of_nat 0) (Z.of_nat 0) (S (ticks w) + 0)
                    (Completed (start_n + Z.of_nat 0) (Z.of_nat 0) None)).
  { apply exit_deadline. unfold before_deadline.
    rewrite Nat.add_0_r. lra. }
  rewrite (run_complete fuel start_n w 0 _ Hfuel (λ j Hj, False_ind _ (Nat.nlt_0_r j Hj)) Hexit).
  unfold run_outcome. cbn [handled last_call].
  eexists _, _. split; [reflexivity|]. cbn [count max_n error trace ticks].
  repeat split; try done; [|lia]. cbn. by rewrite app_nil_r.
Qed.

(** C10: whenever [run_for_duration] returns with an error, the failure
    happened at index [start_n + count]: the calls made are those at
    [start_n .. start_n + count], all but the last succeeded, and the
    error text is either the validation message or the tag of the
    raised exception, both naming [start_n + count]. *)
Theorem C10_failure_index_is_start_plus_count
    (fuel : nat) (start_n : Z) (w : World) (r : TimingResult) (w' : World)
    (msg : string) :
  run fuel start_n w = Some (Ret r, w') →
  error r = Some msg →
  0 ≤ count r
  ∧ (∀ k, start_n ≤ k < start_n + count r → ok k)
  ∧ trace w' = trace w ++ (EvCall <$> seqZ start_n (count r + 1))
  ∧ ((rejected_at func validate_func (start_n + count r)
      ∧ msg = "Validation failed at n=" +:+ str (start_n + count r))
     ∨ (∃ e, raises_at func validate_func (start_n + count r) e
             ∧ msg = fault_tag (start_n + count r) e)).
Proof.
  intros (m & exit & _ & Hpre & Hexit & Hout)%run_sound Herr.
  unfold run_outcome in Hout.
  destruct (handled exit) as [error_msg|e] eqn:Hhandled; [|discriminate].
  injection Hout as -> ->. cbn [count error trace] in *. subst error_msg.
  split; [lia|]. split; [|split].
  - intros k Hk. destruct (Hpre (Z.to_nat (k - start_n))) as [_ Hok]; [lia|].
    by replace (start_n + Z.of_nat (Z.to_nat (k - start_n))) with k in Hok by lia.
  - destruct Hexit; cbn [handled last_call] in *; try discriminate;
      by rewrite seqZ_snoc_nat.
  - destruct Hexit as [Hclosed|Hopen Hrej|e Hopen Hraise]; cbn [handled] in Hhandled.
    + discriminate.
    + left. split; [done|congruence].
    + right. exists e. split; [done|].
      apply first_match_tag.
      destruct (first_match e _); [congruence|discriminate].
Qed.

End timer_facts.

(** ** Instances of the timing-loop statements *)
Section timer_instances.
Import timer.

(** Splits a goal over an integer [k] known to lie in a short range. *)
Local Ltac split_range k H :=
  let Hc := fresh "Hc" in
  assert (Hc : k = -1 ∨ k = 0 ∨ k = 1 ∨ k = 2 ∨ k = 3 ∨ k = 4) by lia;
  clear H;
  destruct Hc as [->|[->|[->|[->|[->| ->]]]]].

Lemma wrong_at_4_call_is_made :
  call_is_made steady_clock one_second wrong_at_4 (Some validate_with_table)
    fresh 0 4.
Proof.
  split; [lia|]. split.
  - intros k Hk. assert (0 ≤ k ∧ k ≠ 4 ∧ k ≠ -1) as Hk' by lia.
    split_range k Hk; try lia;
      (eexists; split; [reflexivity|vm_compute; reflexivity]).
  - intros k Hk. assert (k ≠ -1) as Hk' by lia.
    split_range k Hk; try lia; reflexivity.
Defined.

Lemma C1_witness :
  ∃ r w',
    run_for_duration steady_clock one_second wrong_at_4 (Some validate_with_table)
      5 0 fresh = Some (Ret r, w')
    ∧ count r = 4
    ∧ error r = Some "Validation failed at n=4"
    ∧ trace w' = [EvCall 0; EvCall 1; EvCall 2; EvCall 3; EvCall 4].
Proof.
  apply (C1_validation_failure_halts_uncounted steady_clock one_second wrong_at_4
           (Some validate_with_table) 5 0 4 fresh validate_with_table 4).
  - exact wrong_at_4_call_is_made.
  - vm_compute. lia.
  - reflexivity.
  - reflexivity.
  - vm_compute. reflexivity.
Defined.

(** An invalid-argument fault from a negative start index goes through
    the generic clause, message included. *)
Lemma C2_witness :
  ∃ r w',
    run_for_duration steady_clock one_second compute_fibonacci_reference None
      1 (-1) fresh = Some (Ret r, w')
    ∧ count r = 0
    ∧ error r = Some "ValueError at n=-1: n must be non-negative"
    ∧ trace w' = [EvCall (-1)].
Proof.
  apply (C2_fault_classified_by_first_clause steady_clock one_second
           compute_fibonacci_reference None 1 (-1) (-1) fresh
           (ValueError "n must be non-negative")).
  - split; [lia|]. split.
    + intros k Hk. lia.
    + intros k Hk. assert (k = -1) as -> by lia. reflexivity.
  - vm_compute. lia.
  - reflexivity.
  - reflexivity.
Defined.

(** The text the code gives a call-stack exhaustion is
    ["RecursionError at n=<n>"], not ["recursion limit exceeded at n=<n>"]. *)
Lemma C2_counterexample :
  ∃ r w',
    run_for_duration steady_clock one_second deep_from_3 None 4 0 fresh
    = Some (Ret r, w')
    ∧ error r = Some "RecursionError at n=3"
    ∧ error r ≠ Some "recursion limit exceeded at n=3".
Proof.
  eexists _, _. split; [vm_compute; reflexivity|].
  split; [reflexivity|]. cbn [error]. discriminate.
Qed.

Lemma C3_witness :
  0 ≤ count rejected_at_4_result
  ∧ (0 < count rejected_at_4_result →
     max_n rejected_at_4_result = 0 + count rejected_at_4_result - 1)
  ∧ (count rejected_at_4_result = 0 → max_n rejected_at_4_result = 0).
Proof.
  apply (C3_max_n_follows_count steady_clock one_second wrong_at_4
           (Some validate_with_table) 5 0 fresh
           rejected_at_4_result rejected_at_4_world).
  vm_compute. reflexivity.
Defined.

Lemma C8_witness :
  ∃ r w',
    run_for_duration steady_clock no_time compute_fibonacci_reference None
      1 0 fresh = Some (Ret r, w')
    ∧ count r = 0 ∧ max_n r = 0 ∧ error r = None
    ∧ trace w' = []
    ∧ ticks w' = 3%nat.
Proof.
  apply (C8_non_positive_duration_no_call steady_clock no_time
           compute_fibonacci_reference None 1 0 fresh).
  - unfold Qle. cbn. lia.
  - unfold Qle. cbn. lia.
  - lia.
Defined.

Lemma C10_witness :
  0 ≤ count rejected_at_4_result
  ∧ (∀ k, 0 ≤ k < 0 + count rejected_at_4_result →
       succeeds wrong_at_4 (Some validate_with_table) k)
  ∧ trace rejected_at_4_world
    = trace fresh ++ (EvCall <$> seqZ 0 (count rejected_at_4_result + 1))
  ∧ ((rejected_at wrong_at_4 (Some validate_with_table)
        (0 + count rejected_at_4_result)
      ∧ "Validation failed at n=4"
        = "Validation failed at n=" +:+ str (0 + count rejected_at_4_result))
     ∨ (∃ e, raises_at wrong_at_4 (Some validate_with_table)
               (0 + count rejected_at_4_result) e
             ∧ "Validation failed at n=4"
               = fault_tag (0 + count rejected_at_4_result) e)).
Proof.
  apply (C10_failure_index_is_start_plus_count steady_clock one_second wrong_at_4
           (Some validate_with_table) 5 0 fresh
           rejected_at_4_result rejected_at_4_world "Validation failed at n=4").
  - vm_compute. reflexivity.
  - reflexivity.
Defined.

End timer_instances.

(** ** The orchestration of one technique *)
Section runner_facts.
Import timer base_technique benchmark_runner.
Variable clocks : Clocks.
Variable self : BenchmarkRunner.

(** The validation predicate [run_single] passes to the timer. *)
Local Abbreviation validation :=
  (if validate self
   then Some (λ n result : Z, Ret (validate_result n result))
   else None).

(** C4: when the setup hook raises an exception deriving from
    [Exception], [run_single] returns a result with [count = 0],
    [max_n = 0], [duration = 0.0] and [error = "Setup failed: <message>"]
    next to the technique's name, description and complexities; the
    only external call made is the one to [setup] and the timer's clock
    is never read, so neither the timed run nor [teardown] happens. *)
Theorem C4_setup_failure_gives_zero_result
    (fuel : nat) (technique : FibonacciTechnique) (w : World) (e : exn) :
  setup technique = Raise e →
  isinstance e "Exception" = true →
  ∃ r w',
    run_single clocks self fuel technique w = Some (Ret r, w')
    ∧ count r = 0 ∧ max_n r = 0 ∧ duration r = 0%Q
    ∧ error r = Some ("Setup failed: " +:+ exn_str e)
    ∧ technique_name r = name technique
    ∧ description r = base_technique.description technique
    ∧ time_complexity r = base_technique.time_complexity technique
    ∧ space_complexity r = base_technique.space_complexity technique
    ∧ trace w' = trace w ++ [EvSetup]
    ∧ ticks w' = ticks w.
Proof.
  intros Hsetup HE. unfold run_single.
  rewrite Hsetup. cbn [first_match]. rewrite HE.
  cbn [new_BenchmarkResult datetime_now record ticks nows trace].
  eexists _, _. split; [reflexivity|]. by cbn.
Qed.

(** C5: when setup succeeds and the timed run returns [timing_result],
    an exception deriving from [Exception] raised by the teardown hook
    changes nothing: [run_single] returns normally, and the result's
    [count], [max_n], [duration] and [error] are those of
    [timing_result]. *)
Theorem C5_teardown_fault_is_swallowed
    (fuel : nat) (technique : FibonacciTechnique) (w w1 : World)
    (timing_result : TimingResult) (e : exn) :
  setup technique = Ret tt →
  run_for_duration clocks (benchmark_runner.timer self) (calculate technique)
    validation fuel 0 (record EvSetup w) = Some (Ret timing_result, w1) →
  teardown technique = Raise e →
  isinstance e "Exception" = true →
  ∃ r w',
    run_single clocks self fuel technique w = Some (Ret r, w')
    ∧ count r = timer.count timing_result
    ∧ max_n r = timer.max_n timing_result
    ∧ duration r = timer.actual_duration timing_result
    ∧ error r = timer.error timing_result
    ∧ technique_name r = name technique
    ∧ trace w' = trace w1 ++ [EvTeardown].
Proof.
  intros Hsetup Hrun Hteardown HE. unfold run_single.
  rewrite Hsetup, Hrun, Hteardown. cbn [first_match]. rewrite HE.
  cbn [new_BenchmarkResult datetime_now record ticks nows trace].
  eexists _, _. split; [reflexivity|]. by cbn.
Qed.

(** The same run with a teardown hook that does not fault gives the
    same result and leaves the same world. *)
Lemma teardown_outcome_irrelevant
    (fuel : nat) (technique : FibonacciTechnique) (w : World) (e : exn) :
  teardown technique = Raise e →
  isinstance e "Exception" = true →
  run_single clocks self fuel technique w
  = run_single clocks self fuel
      (mkTechnique (name technique) (base_technique.description technique)
         (base_technique.time_complexity technique)
         (base_technique.space_complexity technique)
         (calculate technique) (setup technique) (Ret tt)) w.
Proof.
  intros Hteardown HE. unfold run_single. cbn [setup teardown calculate name
    base_technique.description base_technique.time_complexity
    base_technique.space_complexity].
  rewrite Hteardown. cbn [first_match]. by rewrite HE.
Qed.

End runner_facts.

Section runner_instances.
Import timer base_technique benchmark_runner.

Lemma C4_witness :
  ∃ r w',
    run_single steady_clock quarter_second_runner 5 failing_setup fresh
    = Some (Ret r, w')
    ∧ count r = 0 ∧ max_n r = 0 ∧ duration r = 0%Q
    ∧ error r = Some "Setup failed: warm-up failed"
    ∧ technique_name r = "Failing setup"
    ∧ description r = "Cannot warm up"
    ∧ time_complexity r = "O(n)"
    ∧ space_complexity r = "O(1)"
    ∧ trace w' = [EvSetup]
    ∧ ticks w' = 0%nat.
Proof.
  apply (C4_setup_failure_gives_zero_result steady_clock quarter_second_runner
           5 failing_setup fresh
           (Exn "RuntimeError" ["Exception"; "BaseException"] "warm-up failed")).
  - reflexivity.
  - reflexivity.
Defined.

Lemma C5_witness :
  ∃ r w',
    run_single steady_clock quarter_second_runner 5 failing_teardown fresh
    = Some (Ret r, w')
    ∧ count r = 2
    ∧ max_n r = 1
    ∧ duration r = ((4 # 10) - (0 # 10))%Q
    ∧ error r = None
    ∧ technique_name r = "Failing teardown"
    ∧ trace w' = [EvSetup; EvCall 0; EvCall 1] ++ [EvTeardown].
Proof.
  apply (C5_teardown_fault_is_swallowed steady_clock quarter_second_runner
           5 failing_teardown fresh
           (mkWorld 5 0 [EvSetup; EvCall 0; EvCall 1])
           (mkTimingResult 2 1 ((4 # 10) - (0 # 10))%Q None)
           (Exn "RuntimeError" ["Exception"; "BaseException"] "release failed")).
  - reflexivity.
  - vm_compute. reflexivity.
  - reflexivity.
  - reflexivity.
Defined.

End runner_instances.

(** ** The built-in [sorted] and [max] *)
Section sorted_facts.
Context {A : Type}.
Variable key : A → Z.
Variable reverse : bool.

(** The order [sorted] establishes between an element and a later one. *)
Local Abbreviation in_order :=
  (λ a b : A, if reverse then key b ≤ key a else key a ≤ key b).

Lemma goes_before_true (y x : A) :
  goes_before key reverse y x = true → in_order y x ∧ key y ≠ key x.
Proof. unfold goes_before. destruct reverse; intros ?%Z.ltb_lt; lia. Qed.

Lemma goes_before_false (y x : A) :
  goes_before key reverse y x = false → in_order x y.
Proof. unfold goes_before. destruct reverse; intros ?%Z.ltb_ge; lia. Qed.

Lemma in_order_trans (a b c : A) : in_order a b → in_order b c → in_order a c.
Proof. destruct reverse; lia. Qed.

Lemma insert_sorted_perm (x : A) (l : list A) :
  insert_sorted key reverse x l ≡ₚ x :: l.
Proof.
  induction l as [|y l IH]; cbn [insert_sorted]; [done|].
  destruct (goes_before key reverse y x); [|done].
  rewrite IH. apply Permutation_swap.
Qed.

Lemma insert_sorted_ordered (x : A) (l : list A) :
  StronglySorted in_order l → StronglySorted in_order (insert_sorted key reverse x l).
Proof.
  induction 1 as [|y l Hsorted IH Hall]; cbn [insert_sorted].
  - by repeat constructor.
  - destruct (goes_before key reverse y x) eqn:Hgb.
    + apply goes_before_true in Hgb as [Hyx _].
      constructor; [done|]. rewrite insert_sorted_perm. by constructor.
    + apply goes_before_false in Hgb.
      constructor; [by constructor|]. constructor; [done|].
      eapply Forall_impl; [exact Hall|]. intros z Hz. by eapply in_order_trans.
Qed.

Lemma insert_sorted_stable (k : Z) (x : A) (l : list A) :
  filter (λ a, key a = k) (insert_sorted key reverse x l)
  = filter (λ a, key a = k) (x :: l).
Proof.
  induction l as [|y l IH]; cbn [insert_sorted]; [done|].
  destruct (goes_before key reverse y x) eqn:Hgb; [|done].
  apply goes_before_true in Hgb as [_ Hne].
  rewrite (filter_cons _ y (insert_sorted _ _ _ _)), IH.
  rewrite (filter_cons _ x (y :: l)), (filter_cons _ y l), (filter_cons _ x l).
  repeat case_decide; try done; congruence.
Qed.

Lemma sorted_perm (l : list A) : sorted l key reverse ≡ₚ l.
Proof.
  induction l as [|x l IH]; [done|].
  unfold sorted in *. cbn [foldr]. by rewrite insert_sorted_perm, IH.
Qed.

Lemma sorted_ordered (l : list A) : StronglySorted in_order (sorted l key reverse).
Proof.
  induction l as [|x l IH]; [constructor|].
  unfold sorted in *. cbn [foldr]. by apply insert_sorted_ordered.
Qed.

Lemma sorted_stable (k : Z) (l : list A) :
  filter (λ a, key a = k) (sorted l key reverse) = filter (λ a, key a = k) l.
Proof.
  induction l as [|x l IH]; [done|].
  unfold sorted in *. cbn [foldr].
  by rewrite insert_sorted_stable, !filter_cons, IH.
Qed.

(** The running maximum of [max]: it stays the first item, in the part
    of the list seen so far, whose key is the largest. *)
Lemma max_scan (xs : list A) :
  ∀ (l1 : list A) (best : A) (l2 : list A),
    Forall (λ a, key a < key best) l1 →
    Forall (λ a, key a ≤ key best) l2 →
    ∃ l1' l2',
      l1 ++ best :: l2 ++ xs
      = l1' ++ fold_left (λ best y, if key best <? key y then y else best) xs best
            :: l2'
      ∧ Forall (λ a, key a
                     < key (fold_left (λ best y, if key best <? key y then y else best)
                              xs best)) l1'
      ∧ Forall (λ a, key a
                     ≤ key (fold_left (λ best y, if key best <? key y then y else best)
                              xs best)) l2'.
Proof.
  induction xs as [|y xs IH]; intros l1 best l2 H1 H2; cbn [fold_left].
  - exists l1, l2. by rewrite app_nil_r.
  - destruct (Z.ltb_spec (key best) (key y)) as [Hlt|Hge].
    + destruct (IH (l1 ++ best :: l2) y []) as (l1' & l2' & Heq & ? & ?).
      * apply Forall_app. split; [|constructor; [done|]].
        -- eapply Forall_impl; [exact H1|]. cbn. lia.
        -- eapply Forall_impl; [exact H2|]. cbn. lia.
      * constructor.
      * exists l1', l2'. split; [|done]. rewrite <- Heq.
        by rewrite <- app_assoc.
    + destruct (IH l1 best (l2 ++ [y])) as (l1' & l2' & Heq & ? & ?).
      * done.
      * apply Forall_app. split; [done|]. by repeat constructor.
      * exists l1', l2'. split; [|done]. rewrite <- Heq.
        by rewrite <- app_assoc.
Qed.

Lemma max_first_maximal (l : list A) :
  l ≠ [] →
  ∃ r l1 l2,
    Py.max l key = Ret r
    ∧ l = l1 ++ r :: l2
    ∧ Forall (λ a, key a < key r) l1
    ∧ Forall (λ a, key a ≤ key r) l2.
Proof.
  destruct l as [|x xs]; [done|]. intros _.
  destruct (max_scan xs [] x []) as (l1 & l2 & Heq & ? & ?); [constructor..|].
  eexists _, l1, l2. split; [reflexivity|]. by split.
Qed.

End sorted_facts.

(** ** The views of a summary *)
Section summary_facts.
Import benchmark_runner.

Lemma extremal_lookup (key : BenchmarkResult → Z) (l : list BenchmarkResult) :
  (match l with
   | [] => Ret None
   | _ => match Py.max l key with Ret r => Ret (Some r) | Raise e => Raise e end
   end = Ret None ↔ l = [])
  ∧ (l ≠ [] →
     ∃ r l1 l2,
       match l with
       | [] => Ret None
       | _ => match Py.max l key with Ret r => Ret (Some r) | Raise e => Raise e end
       end = Ret (Some r)
       ∧ l = l1 ++ r :: l2
       ∧ Forall (λ a, key a < key r) l1
       ∧ Forall (λ a, key a ≤ key r) l2).
Proof.
  split.
  - destruct l as [|x xs]; [done|]. split; [|done].
    destruct (max_first_maximal key (x :: xs)) as (r & ? & ? & -> & _); done.
  - intros Hne.
    destruct (max_first_maximal key l Hne) as (r & l1 & l2 & Hmax & ? & ? & ?).
    exists r, l1, l2. destruct l; [done|]. by rewrite Hmax.
Qed.

(** C9: the views of a summary are functions of its [results] alone.
    [get_sorted_by_count] and [get_sorted_by_max_n] (descending) return
    a rearrangement of [results] in descending key order that keeps the
    original order among equal keys; [get_fastest] and [get_highest_n]
    return [None] exactly on an empty [results], and otherwise the
    first result, in original order, whose [count] (resp. [max_n]) is
    maximal. *)
Theorem C9_summary_views_stable_and_first_maximal (s : BenchmarkSummary) :
  (get_sorted_by_count s true ≡ₚ results s
   ∧ StronglySorted (λ a b, count b ≤ count a) (get_sorted_by_count s true)
   ∧ ∀ c, filter (λ r, count r = c) (get_sorted_by_count s true)
          = filter (λ r, count r = c) (results s))
  ∧ (get_sorted_by_max_n s true ≡ₚ results s
     ∧ StronglySorted (λ a b, max_n b ≤ max_n a) (get_sorted_by_max_n s true)
     ∧ ∀ c, filter (λ r, max_n r = c) (get_sorted_by_max_n s true)
            = filter (λ r, max_n r = c) (results s))
  ∧ (get_fastest s = Ret None ↔ results s = [])
  ∧ (results s ≠ [] →
     ∃ r l1 l2,
       get_fastest s = Ret (Some r)
       ∧ results s = l1 ++ r :: l2
       ∧ Forall (λ a, count a < count r) l1
       ∧ Forall (λ a, count a ≤ count r) l2)
  ∧ (get_highest_n s = Ret None ↔ results s = [])
  ∧ (results s ≠ [] →
     ∃ r l1 l2,
       get_highest_n s = Ret (Some r)
       ∧ results s = l1 ++ r :: l2
       ∧ Forall (λ a, max_n a < max_n r) l1
       ∧ Forall (λ a, max_n a ≤ max_n r) l2).
Proof.
  unfold get_sorted_by_count, get_sorted_by_max_n, get_fastest, get_highest_n.
  split; [|split].
  - split; [apply sorted_perm|]. split; [|intros c; apply sorted_stable].
    apply (sorted_ordered count true).
  - split; [apply sorted_perm|]. split; [|intros c; apply sorted_stable].
    apply (sorted_ordered max_n true).
  - destruct (extremal_lookup count (results s)) as [? ?].
    destruct (extremal_lookup max_n (results s)) as [? ?].
    done.
Qed.

End summary_facts.

Section summary_instances.
Import benchmark_runner.

Example tied_summary_sorted_by_count :
  get_sorted_by_count tied_summary true
  = [ result_of "b" 7 3; result_of "d" 7 9; result_of "a" 5 9; result_of "c" 5 3 ].
Proof. reflexivity. Qed.

Example tied_summary_sorted_by_max_n :
  get_sorted_by_max_n tied_summary true
  = [ result_of "a" 5 9; result_of "d" 7 9; result_of "b" 7 3; result_of "c" 5 3 ].
Proof. reflexivity. Qed.

Example tied_summary_sorted_ascending :
  get_sorted_by_count tied_summary false
  = [ result_of "a" 5 9; result_of "c" 5 3; result_of "b" 7 3; result_of "d" 7 9 ].
Proof. reflexivity. Qed.

Example tied_summary_fastest :
  get_fastest tied_summary = Ret (Some (result_of "b" 7 3)).
Proof. reflexivity. Qed.

Example tied_summary_highest_n :
  get_highest_n tied_summary = Ret (Some (result_of "a" 5 9)).
Proof. reflexivity. Qed.

Example empty_summary_fastest :
  get_fastest (mkBenchmarkSummary [] 0%Q 0) = Ret None.
Proof. reflexivity. Qed.

Lemma C9_witness :
  ∃ r l1 l2,
    get_fastest tied_summary = Ret (Some r)
    ∧ results tied_summary = l1 ++ r :: l2
    ∧ Forall (λ a, count a < count r) l1
    ∧ Forall (λ a, count a ≤ count r) l2.
Proof.
  apply (C9_summary_views_stable_and_first_maximal tied_summary).
  discriminate.
Defined.

End summary_instances.




(** ** Fibonacci identities *)
Section fibonacci_identities.

Lemma fib_spec_succ (n : nat) :
  fib_spec (n + 2) = fib_spec (n + 1) + fib_spec n.
Proof.
  replace (n + 2)%nat with (S (S n)) by lia.
  replace (n + 1)%nat with (S n) by lia.
  apply fib_spec_step.
Qed.

Lemma fib_spec_nonneg (n : nat) : 0 ≤ fib_spec n ∧ 0 ≤ fib_spec (S n).
Proof.
  induction n as [|n [IH0 IH1]]; [cbn; lia|].
  split; [done|]. rewrite fib_spec_step. lia.
Qed.

(** F(m + n + 1) = F(m + 1) F(n + 1) + F(m) F(n) *)
Lemma fib_spec_add (m n : nat) :
  fib_spec (m + n + 1) = fib_spec (m + 1) * fib_spec (n + 1) + fib_spec m * fib_spec n
  ∧ fib_spec (m + n + 2)
    = fib_spec (m + 2) * fib_spec (n + 1) + fib_spec (m + 1) * fib_spec n.
Proof.
  induction m as [|m [IH1 IH2]].
  - cbn [Nat.add]. change (fib_spec 1) with 1. change (fib_spec 0) with 0.
    change (fib_spec 2) with 1. split; [lia|].
    replace (S (S n)) with (n + 2)%nat by lia.
    replace (S n) with (n + 1)%nat by lia.
    rewrite fib_spec_succ. lia.
  - split.
    + replace (S m + n + 1)%nat with (m + n + 2)%nat by lia.
      replace (S m + 1)%nat with (m + 2)%nat by lia.
      replace (S m) with (m + 1)%nat by lia. exact IH2.
    + replace (S m + n + 2)%nat with ((m + n + 1) + 2)%nat by lia.
      rewrite fib_spec_succ.
      replace (m + n + 1 + 1)%nat with (m + n + 2)%nat by lia.
      rewrite IH1, IH2.
      replace (S m + 2)%nat with ((m + 1) + 2)%nat by lia.
      rewrite (fib_spec_succ (m + 1)).
      replace (m + 1 + 1)%nat with (m + 2)%nat by lia.
      replace (S m + 1)%nat with (m + 2)%nat by lia.
      rewrite (fib_spec_succ m). lia.
Qed.

(** F(2k) = F(k) (2 F(k+1) - F(k)) and F(2k+1) = F(k)^2 + F(k+1)^2 *)
Lemma fib_spec_double (k : nat) :
  fib_spec (2 * k) = fib_spec k * (2 * fib_spec (k + 1) - fib_spec k)
  ∧ fib_spec (2 * k + 1) = fib_spec k * fib_spec k + fib_spec (k + 1) * fib_spec (k + 1).
Proof.
  split.
  - destruct k as [|k]; [reflexivity|].
    destruct (fib_spec_add k (S k)) as [_ H2].
    replace (2 * S k)%nat with (k + S k + 1)%nat by lia.
    destruct (fib_spec_add k (S k)) as [H1 _]. rewrite H1.
    replace (S k + 1)%nat with (k + 2)%nat by lia.
    replace (S k) with (k + 1)%nat by lia.
    rewrite (fib_spec_succ k). lia.
  - destruct (fib_spec_add k k) as [H1 _].
    replace (2 * k + 1)%nat with (k + k + 1)%nat by lia. rewrite H1. lia.
Qed.

(** The Fibonacci number at an integer index, in terms of its half. *)
Lemma fib_spec_halves (n a b : Z) :
  0 < n →
  a = fib_spec (Z.to_nat (n / 2)) →
  b = fib_spec (Z.to_nat (n / 2 + 1)) →
  (if n mod 2 =? 0
   then (a * (2 * b - a), a * a + b * b)
   else (a * a + b * b, a * (2 * b - a) + (a * a + b * b)))
  = (fib_spec (Z.to_nat n), fib_spec (Z.to_nat (n + 1))).
Proof.
  intros Hn -> ->.
  pose proof (Z.div_mod n 2 ltac:(lia)) as Hdm.
  pose proof (Z.mod_pos_bound n 2 ltac:(lia)) as Hmod.
  assert (0 ≤ n / 2) as Hq by (apply Z.div_pos; lia).
  destruct (fib_spec_double (Z.to_nat (n / 2))) as [Heven Hodd].
  replace (Z.to_nat (n / 2 + 1)) with (Z.to_nat (n / 2) + 1)%nat by lia.
  destruct (Z.eqb_spec (n mod 2) 0) as [H0|H1].
  - replace (Z.to_nat n) with (2 * Z.to_nat (n / 2))%nat by lia.
    replace (Z.to_nat (n + 1)) with (2 * Z.to_nat (n / 2) + 1)%nat by lia.
    by rewrite Heven, Hodd.
  - replace (Z.to_nat n) with (2 * Z.to_nat (n / 2) + 1)%nat by lia.
    replace (Z.to_nat (n + 1)) with (2 * Z.to_nat (n / 2) + 2)%nat by lia.
    rewrite fib_spec_succ, Heven, Hodd. f_equal. lia.
Qed.

End fibonacci_identities.

(** ** The techniques *)
Section technique_facts.
Import techniques.

Lemma fib_spec_at (n : Z) :
  2 ≤ n →
  fib_spec (Z.to_nat n) = fib_spec (Z.to_nat (n - 1)) + fib_spec (Z.to_nat (n - 2)).
Proof.
  intros Hn.
  replace (Z.to_nat n) with (S (S (Z.to_nat (n - 2)))) by lia.
  replace (Z.to_nat (n - 1)) with (S (Z.to_nat (n - 2))) by lia.
  apply fib_spec_step.
Qed.

Lemma fib_spec_small (n : Z) : 0 ≤ n → n ≤ 1 → fib_spec (Z.to_nat n) = n.
Proof. intros ? ?. assert (n = 0 ∨ n = 1) as [-> | ->] by lia; reflexivity. Qed.

(** *** Naive recursion *)

(** X1: With room for [max(1, n)] nested calls, [NaiveRecursion.calculate]
    returns F(n). *)
Theorem naive_recursion_correct (depth : nat) (n : Z) :
  0 ≤ n →
  Z.max 1 n ≤ Z.of_nat depth →
  naive_recursion.calculate depth n = Ret (fib_spec (Z.to_nat n)).
Proof.
  revert n. induction depth as [|depth IH]; intros n Hn Hdepth; [lia|].
  cbn [naive_recursion.calculate].
  destruct (Z.ltb_spec n 0); [lia|].
  destruct (Z.leb_spec n 1).
  - by rewrite fib_spec_small.
  - rewrite (IH (n - 1)), (IH (n - 2)) by lia. cbn.
    by rewrite <- fib_spec_at by lia.
Qed.

(** X2: With room for fewer than [n] nested calls ([n >= 2]) it raises
    [RecursionError]. *)
Theorem naive_recursion_overflow (depth : nat) (n : Z) :
  2 ≤ n →
  Z.of_nat depth < n →
  naive_recursion.calculate depth n = Raise stack_overflow.
Proof.
  revert n. induction depth as [|depth IH]; intros n Hn Hdepth; [done|].
  cbn [naive_recursion.calculate].
  destruct (Z.ltb_spec n 0); [lia|].
  destruct (Z.leb_spec n 1); [lia|].
  destruct (decide (n = 2)) as [->|Hne].
  - assert (depth = 0%nat) as -> by lia. reflexivity.
  - by rewrite (IH (n - 1)) by lia.
Qed.

(** *** Iterative, space-optimized *)

(** X3: [IterativeSpaceOptimized.calculate] raises [ValueError] below zero
    and returns F(n) from zero on. *)
Theorem iterative_space_optimized_correct (n : Z) :
  iterative_space_optimized.calculate n
  = if n <? 0 then Raise (ValueError "n must be non-negative")
    else Ret (fib_spec (Z.to_nat n)).
Proof.
  change (iterative_space_optimized.calculate n) with (compute_fibonacci_reference n).
  destruct (Z.ltb_spec n 0).
  - by apply compute_fibonacci_reference_negative.
  - by apply compute_fibonacci_reference_fib.
Qed.

(** *** Parallel processing *)

(** X4: [_fib_single] has no guard of its own: it returns a negative
    argument unchanged, and F(n) from zero on; [calculate] puts the
    [ValueError] guard in front of it. *)
Theorem parallel_fib_single_unguarded (n : Z) :
  parallel_processing._fib_single n
  = (if n <? 0 then n else fib_spec (Z.to_nat n))
  ∧ parallel_processing.calculate n
    = (if n <? 0 then Raise (ValueError "n must be non-negative")
       else Ret (fib_spec (Z.to_nat n))).
Proof.
  assert (Hsingle : parallel_processing._fib_single n
                    = if n <? 0 then n else fib_spec (Z.to_nat n)).
  { unfold parallel_processing._fib_single.
    destruct (Z.ltb_spec n 0).
    - by destruct (Z.leb_spec n 1); [|lia].
    - pose proof (compute_fibonacci_reference_fib n ltac:(done)) as Href.
      unfold compute_fibonacci_reference in Href.
      destruct (Z.ltb_spec n 0); [lia|].
      destruct (Z.leb_spec n 1); [congruence|].
      destruct (fold_left _ _ _) as [a b]. congruence. }
  split; [done|].
  unfold parallel_processing.calculate. rewrite Hsingle.
  by destruct (n <? 0).
Qed.

(** *** Generator *)

Lemma generator_advance (l : list Z) (i : nat) :
  fold_left (λ gen (_ : Z), (generator_based.next gen).2) l
    (fib_spec i, fib_spec (S i))
  = (fib_spec (i + length l), fib_spec (S (i + length l))).
Proof.
  revert i. induction l as [|x l IH]; intros i; cbn [fold_left length].
  - by rewrite Nat.add_0_r.
  - cbn [generator_based.next snd].
    replace (fib_spec i + fib_spec (S i)) with (fib_spec (S (S i)))
      by (rewrite fib_spec_step; lia).
    rewrite IH. by replace (S i + length l)%nat with (i + S (length l))%nat by lia.
Qed.

Lemma generator_state (k : nat) :
  Nat.iter k (λ gen : generator_based.generator, (generator_based.next gen).2)
    generator_based.fibonacci_generator
  = (fib_spec k, fib_spec (S k)).
Proof.
  induction k as [|k IH]; [done|].
  rewrite Nat.iter_succ, IH. cbn [generator_based.next snd].
  rewrite fib_spec_step. f_equal. lia.
Qed.

(** X5: The generator yields F(0), F(1), F(2), ... in turn: after [k] calls
    of [next], the next value is F(k); and [GeneratorBased.calculate]
    raises [ValueError] below zero and returns F(n) from zero on. *)
Theorem generator_yields_fibonacci :
  (∀ k : nat,
     (generator_based.next
        (Nat.iter k (λ gen : generator_based.generator, (generator_based.next gen).2)
           generator_based.fibonacci_generator)).1 = fib_spec k)
  ∧ (∀ n : Z,
       generator_based.calculate n
       = if n <? 0 then Raise (ValueError "n must be non-negative")
         else Ret (fib_spec (Z.to_nat n))).
Proof.
  split.
  - intros k. by rewrite generator_state.
  - intros n. unfold generator_based.calculate.
    destruct (Z.ltb_spec n 0); [done|].
    change generator_based.fibonacci_generator with (fib_spec 0, fib_spec 1).
    rewrite generator_advance, range_length. cbn [generator_based.next fst Nat.add].
    do 2 f_equal. lia.
Qed.

(** *** Fast doubling *)

Lemma fast_doubling_unfold (depth : nat) (n : Z) :
  fast_doubling._fast_doubling (S depth) n
  = if n =? 0 then Ret (0, 1)
    else
      '(a, b) ← fast_doubling._fast_doubling depth (n / 2);
      let c := a * (2 * b - a) in
      let d := a * a + b * b in
      if n mod 2 =? 0 then Ret (c, d) else Ret (d, c + d).
Proof. reflexivity. Qed.

Lemma fast_doubling_pair (depth : nat) :
  ∀ n : Z,
    0 ≤ n →
    n < 2 ^ Z.of_nat depth →
    fast_doubling._fast_doubling (S depth) n
    = Ret (fib_spec (Z.to_nat n), fib_spec (Z.to_nat (n + 1))).
Proof.
  induction depth as [|depth IH]; intros n Hn Hbound.
  - assert (n = 0) as -> by (cbn in Hbound; lia). reflexivity.
  - rewrite fast_doubling_unfold.
    destruct (Z.eqb_spec n 0) as [->|Hne]; [reflexivity|].
    rewrite IH.
    + cbn [mbind res_bind]. cbv zeta.
      rewrite <- (fib_spec_halves n _ _ ltac:(lia) eq_refl eq_refl).
      by destruct (n mod 2 =? 0).
    + apply Z.div_pos; lia.
    + apply Z.div_lt_upper_bound; [lia|].
      rewrite Nat2Z.inj_succ, Z.pow_succ_r in Hbound by lia. lia.
Qed.

(** X6: [FastDoubling._fast_doubling] returns the pair (F(n), F(n+1)), and
    [calculate] returns F(n), when the index is below two to the power of
    the number of nested calls still possible. *)
Theorem fast_doubling_correct (depth : nat) (n : Z) :
  0 ≤ n →
  n < 2 ^ Z.of_nat depth →
  fast_doubling._fast_doubling (S depth) n
  = Ret (fib_spec (Z.to_nat n), fib_spec (Z.to_nat (n + 1)))
  ∧ fast_doubling.calculate (S (S depth)) n = Ret (fib_spec (Z.to_nat n)).
Proof.
  intros Hn Hbound. split; [by apply fast_doubling_pair|].
  unfold fast_doubling.calculate.
  destruct (Z.ltb_spec n 0); [lia|].
  by rewrite fast_doubling_pair.
Qed.

(** X7: On a negative index [_fast_doubling] never returns a value: the
    index stays negative under halving, so every recursion limit is
    reached. Only the guard in [calculate] keeps this from happening. *)
Theorem fast_doubling_negative_never_returns (depth : nat) (n : Z) :
  n < 0 →
  fast_doubling._fast_doubling depth n = Raise stack_overflow
  ∧ fast_doubling.calculate (S depth) n = Raise (ValueError "n must be non-negative").
Proof.
  intros Hn. split.
  - revert n Hn. induction depth as [|depth IH]; intros n Hn; [done|].
    rewrite fast_doubling_unfold.
    destruct (Z.eqb_spec n 0); [lia|].
    rewrite IH; [done|].
    apply Z.div_lt_upper_bound; lia.
  - unfold fast_doubling.calculate. by destruct (Z.ltb_spec n 0); [|lia].
Qed.

(** The iterative version: the bits of [n], highest first. *)

Lemma fib_spec_halves_nonneg (n a b : Z) :
  0 ≤ n →
  a = fib_spec (Z.to_nat (n / 2)) →
  b = fib_spec (Z.to_nat (n / 2 + 1)) →
  (if n mod 2 =? 0
   then (a * (2 * b - a), a * a + b * b)
   else (a * a + b * b, a * (2 * b - a) + (a * a + b * b)))
  = (fib_spec (Z.to_nat n), fib_spec (Z.to_nat (n + 1))).
Proof.
  intros Hn Ha Hb. destruct (decide (n = 0)) as [->|Hne].
  - subst. reflexivity.
  - apply fib_spec_halves; [lia|done..].
Qed.

Lemma range_step_down (top : Z) :
  0 ≤ top →
  range_step top (-1) (-1) = Ret ((λ k, top + k * -1) <$> seqZ 0 (top + 1)).
Proof.
  intros Htop. unfold range_step. cbn [Z.eqb Z.ltb Z.compare Z.opp].
  do 3 f_equal. rewrite Z.div_1_r. lia.
Qed.

Lemma land_one_bit (x : Z) : truthy (Z.land x 1) = negb (x mod 2 =? 0).
Proof.
  unfold truthy. change 1 with (Z.ones 1). rewrite Z.land_ones by lia.
  reflexivity.
Qed.

Lemma shiftr_half (n i : Z) : 0 ≤ i → Z.shiftr n i / 2 = Z.shiftr n (i + 1).
Proof.
  intros Hi. rewrite <- (Z.shiftr_shiftr n i 1) by lia.
  by rewrite (Z.shiftr_div_pow2 _ 1) by lia.
Qed.

Lemma fast_doubling_bits (n top : Z) (m : nat) :
  ∀ (j a b : Z),
    0 ≤ n →
    0 ≤ j →
    j + Z.of_nat m = top + 1 →
    a = fib_spec (Z.to_nat (Z.shiftr n (top - j + 1))) →
    b = fib_spec (Z.to_nat (Z.shiftr n (top - j + 1) + 1)) →
    fold_left
      (λ '(a, b) i,
         let c := a * (2 * b - a) in
         let d := a * a + b * b in
         if truthy (Z.land (Z.shiftr n i) 1) then (d, c + d) else (c, d))
      ((λ k, top + k * -1) <$> seqZ j (Z.of_nat m)) (a, b)
    = (fib_spec (Z.to_nat n), fib_spec (Z.to_nat (n + 1))).
Proof.
  induction m as [|m IH]; intros j a b Hn Hj Hlen Ha Hb.
  - cbn. replace (top - j + 1) with 0 in Ha, Hb by lia.
    rewrite Z.shiftr_0_r in Ha, Hb. by subst.
  - rewrite seqZ_S, fmap_cons. cbn [fold_left]. cbv zeta.
    replace (top + j * -1) with (top - j) by lia.
    rewrite land_one_bit.
    assert (0 ≤ Z.shiftr n (top - j)) as Hshift by (apply Z.shiftr_nonneg; lia).
    pose proof (fib_spec_halves_nonneg (Z.shiftr n (top - j)) a b Hshift) as Hhalf.
    rewrite shiftr_half in Hhalf by lia.
    specialize (Hhalf Ha Hb).
    destruct (Z.shiftr n (top - j) mod 2 =? 0); cbn [negb];
      injection Hhalf as Ha' Hb';
      (apply IH; try lia;
       replace (top - (j + 1) + 1) with (top - j) by lia; done).
Qed.

(** X8: [FastDoubling.calculate_iterative] raises [ValueError] below zero and
    returns F(n) from zero on. *)
Theorem fast_doubling_iterative_correct (n : Z) :
  fast_doubling.calculate_iterative n
  = if n <? 0 then Raise (ValueError "n must be non-negative")
    else Ret (fib_spec (Z.to_nat n)).
Proof.
  unfold fast_doubling.calculate_iterative.
  destruct (Z.ltb_spec n 0); [done|].
  destruct (Z.eqb_spec n 0) as [->|Hne]; [done|].
  unfold bit_length. destruct (Z.eqb_spec n 0); [done|].
  rewrite Z.abs_eq by lia.
  replace (Z.log2 n + 1 - 1) with (Z.log2 n) by lia.
  pose proof (Z.log2_nonneg n) as Hlog.
  rewrite range_step_down by done. cbn [mbind res_bind].
  replace (Z.log2 n + 1) with (Z.of_nat (Z.to_nat (Z.log2 n + 1))) at 1 by lia.
  rewrite (fast_doubling_bits n (Z.log2 n) _ 0 0 1); try done; try lia.
  - replace (Z.log2 n - 0 + 1) with (Z.succ (Z.log2 n)) by lia.
    rewrite Z.shiftr_div_pow2 by lia.
    rewrite Z.div_small; [done|].
    split; [lia|]. apply Z.log2_spec. lia.
  - replace (Z.log2 n - 0 + 1) with (Z.succ (Z.log2 n)) by lia.
    rewrite Z.shiftr_div_pow2 by lia.
    rewrite Z.div_small; [done|].
    split; [lia|]. apply Z.log2_spec. lia.
Qed.

(** *** Dynamic programming *)

Lemma getitem_lookup {A : Type} (l : list A) (i : Z) (x : A) :
  0 ≤ i → l !! Z.to_nat i = Some x → getitem l i = Ret x.
Proof.
  intros Hi Hx. unfold getitem. cbv zeta.
  pose proof (lookup_lt_Some _ _ _ Hx) as Hlt.
  assert ((i <? 0) = false) as Hneg by (apply Z.ltb_ge; lia).
  rewrite !Hneg. cbn [orb].
  destruct (Z.leb_spec (Z.of_nat (length l)) i); [lia|].
  by rewrite Hx.
Qed.

Lemma setitem_insert {A : Type} (l : list A) (i : Z) (x : A) :
  0 ≤ i < Z.of_nat (length l) → setitem l i x = Ret (<[Z.to_nat i := x]> l).
Proof.
  intros Hi. unfold setitem. cbv zeta.
  assert ((i <? 0) = false) as Hneg by (apply Z.ltb_ge; lia).
  rewrite !Hneg. cbn [orb].
  by destruct (Z.leb_spec (Z.of_nat (length l)) i); [lia|].
Qed.

(** The loop fills the table upwards: once the entries below [k] are
    right, the remaining passes make all of them right. *)
Lemma dynamic_programming_fill (N m : nat) :
  ∀ (k : nat) (dp : list Z),
    (2 ≤ k)%nat →
    (k + m = N)%nat →
    length dp = N →
    (∀ j, (j < k)%nat → dp !! j = Some (fib_spec j)) →
    ∃ dp',
      for_loop (seqZ (Z.of_nat k) (Z.of_nat m))
        (λ dp i,
           x ← getitem dp (i - 1);
           y ← getitem dp (i - 2);
           setitem dp i (x + y))
        dp = Ret dp'
      ∧ length dp' = N
      ∧ ∀ j, (j < N)%nat → dp' !! j = Some (fib_spec j).
Proof.
  induction m as [|m IH]; intros k dp Hk Hkm Hlen Hinv.
  - exists dp. split; [done|]. split; [done|]. intros j Hj. apply Hinv. lia.
  - rewrite seqZ_S. cbn [for_loop].
    rewrite (getitem_lookup dp (Z.of_nat k - 1) (fib_spec (k - 1))); [|lia|].
    2:{ replace (Z.to_nat (Z.of_nat k - 1)) with (k - 1)%nat by lia.
        apply Hinv. lia. }
    cbn [mbind res_bind].
    rewrite (getitem_lookup dp (Z.of_nat k - 2) (fib_spec (k - 2))); [|lia|].
    2:{ replace (Z.to_nat (Z.of_nat k - 2)) with (k - 2)%nat by lia.
        apply Hinv. lia. }
    cbn [mbind res_bind].
    rewrite setitem_insert by lia. cbn [mbind res_bind].
    rewrite Nat2Z.id.
    replace (Z.of_nat k + 1) with (Z.of_nat (S k)) by lia.
    apply IH; [lia|lia|by rewrite length_insert|].
    intros j Hj. destruct (decide (j = k)) as [->|Hne].
    + rewrite list_lookup_insert_eq by lia. f_equal.
      replace k with (S (S (k - 2))) at 3 by lia.
      rewrite fib_spec_step. replace (S (k - 2)) with (k - 1)%nat by lia. done.
    + rewrite list_lookup_insert_ne by done. apply Hinv. lia.
Qed.

(** X9: [DynamicProgramming.calculate] raises [ValueError] below zero and
    returns F(n) from zero on; no index it uses is ever out of range. *)
Theorem dynamic_programming_correct (n : Z) :
  dynamic_programming.calculate n
  = if n <? 0 then Raise (ValueError "n must be non-negative")
    else Ret (fib_spec (Z.to_nat n)).
Proof.
  unfold dynamic_programming.calculate.
  destruct (Z.ltb_spec n 0); [done|].
  destruct (Z.leb_spec n 1); [by rewrite fib_spec_small|].
  unfold repeat_list.
  rewrite setitem_insert by (rewrite length_replicate; lia).
  cbn [mbind res_bind].
  rewrite setitem_insert by (rewrite length_insert, length_replicate; lia).
  cbn [mbind res_bind].
  unfold range.
  replace (n + 1 - 2) with (Z.of_nat (Z.to_nat (n - 1))) by lia.
  change 2 with (Z.of_nat 2) at 1.
  destruct (dynamic_programming_fill (Z.to_nat (n + 1)) (Z.to_nat (n - 1)) 2
              (<[Z.to_nat 1 := 1]> (<[Z.to_nat 0 := 0]> (replicate (Z.to_nat (n + 1)) 0))))
    as (dp' & -> & Hlen & Hall).
  - lia.
  - lia.
  - by rewrite !length_insert, length_replicate.
  - intros [|[|j]] Hj; [| |lia].
    + rewrite list_lookup_insert_ne by done.
      by rewrite list_lookup_insert_eq by (rewrite length_replicate; lia).
    + by rewrite list_lookup_insert_eq
        by (rewrite length_insert, length_replicate; lia).
  - cbn [mbind res_bind]. apply getitem_lookup; [lia|]. apply Hall. lia.
Qed.

(** *** Matrix exponentiation *)

Lemma matrix_mult_rows (A B : M2) :
  matrix_exponentiation._matrix_mult (rows A) (rows B) = Ret (rows (m2_mul A B)).
Proof. destruct A as [[[a b] c] d], B as [[[e f] g] h]. reflexivity. Qed.

Lemma m2_mul_assoc (A B C : M2) : m2_mul A (m2_mul B C) = m2_mul (m2_mul A B) C.
Proof.
  destruct A as [[[a1 a2] a3] a4], B as [[[b1 b2] b3] b4], C as [[[c1 c2] c3] c4].
  unfold m2_mul. f_equal; [f_equal; [f_equal|]|]; ring.
Qed.

Lemma m2_mul_one_r (A : M2) : m2_mul A m2_one = A.
Proof.
  destruct A as [[[a b] c] d]. unfold m2_mul, m2_one.
  f_equal; [f_equal; [f_equal|]|]; ring.
Qed.

Lemma m2_mul_one_l (A : M2) : m2_mul m2_one A = A.
Proof.
  destruct A as [[[a b] c] d]. unfold m2_mul, m2_one.
  f_equal; [f_equal; [f_equal|]|]; ring.
Qed.

Lemma m2_pow_double (q : nat) (M : M2) :
  m2_pow (2 * q) M = m2_pow q (m2_mul M M).
Proof.
  induction q as [|q IH]; [done|].
  replace (2 * S q)%nat with (S (S (2 * q))) by lia.
  cbn [m2_pow]. by rewrite IH, m2_mul_assoc.
Qed.

Lemma matrix_pow_loop_unfold (fuel : nat) (result M : list (list Z)) (n : Z) :
  matrix_exponentiation._matrix_pow_loop (S fuel) result M n
  = if 0 <? n then
      match (if n mod 2 =? 1
             then matrix_exponentiation._matrix_mult result M
             else Ret result) with
      | Raise e => Some (Raise e)
      | Ret result =>
          match matrix_exponentiation._matrix_mult M M with
          | Raise e => Some (Raise e)
          | Ret M => matrix_exponentiation._matrix_pow_loop fuel result M (n / 2)
          end
      end
    else Some (Ret result).
Proof. reflexivity. Qed.

Lemma matrix_pow_loop_spec (fuel : nat) :
  ∀ (R M : M2) (n : Z),
    n < 2 ^ Z.of_nat fuel →
    matrix_exponentiation._matrix_pow_loop (S fuel) (rows R) (rows M) n
    = Some (Ret (rows (m2_mul R (m2_pow (Z.to_nat n) M)))).
Proof.
  induction fuel as [|fuel IH]; intros R M n Hbound.
  - rewrite matrix_pow_loop_unfold.
    destruct (Z.ltb_spec 0 n); [cbn in Hbound; lia|].
    replace (Z.to_nat n) with 0%nat by lia. cbn [m2_pow].
    by rewrite m2_mul_one_r.
  - rewrite matrix_pow_loop_unfold.
    destruct (Z.ltb_spec 0 n) as [Hpos|Hneg].
    2:{ replace (Z.to_nat n) with 0%nat by lia. cbn [m2_pow].
        by rewrite m2_mul_one_r. }
    pose proof (Z.div_mod n 2 ltac:(lia)) as Hdm.
    pose proof (Z.mod_pos_bound n 2 ltac:(lia)) as Hmod.
    assert (n / 2 < 2 ^ Z.of_nat fuel) as Hhalf.
    { apply Z.div_lt_upper_bound; [lia|].
      rewrite Nat2Z.inj_succ, Z.pow_succ_r in Hbound by lia. lia. }
    assert (0 ≤ n / 2) as Hq by (apply Z.div_pos; lia).
    destruct (Z.eqb_spec (n mod 2) 1) as [Hodd|Heven].
    + rewrite !matrix_mult_rows, IH by done. do 3 f_equal.
      replace (Z.to_nat n) with (S (2 * Z.to_nat (n / 2))) by lia.
      cbn [m2_pow]. by rewrite m2_pow_double, m2_mul_assoc.
    + rewrite !matrix_mult_rows, IH by done. do 3 f_equal.
      replace (Z.to_nat n) with (2 * Z.to_nat (n / 2))%nat by lia.
      by rewrite m2_pow_double.
Qed.

Lemma matrix_pow_spec (fuel : nat) (M : M2) (n : Z) :
  n < 2 ^ Z.of_nat fuel →
  matrix_exponentiation._matrix_pow (S fuel) (rows M) n
  = Some (Ret (rows (m2_pow (Z.to_nat n) M))).
Proof.
  intros Hbound. unfold matrix_exponentiation._matrix_pow.
  change [[1; 0]; [0; 1]] with (rows m2_one).
  by rewrite matrix_pow_loop_spec, m2_mul_one_l.
Qed.

(** X10: [_matrix_pow] returns the [n]-th power of a 2x2 matrix (the identity
    when [n <= 0]), given fuel for one more evaluation of the loop
    condition than [n] has binary digits. *)
Theorem matrix_pow_is_power (fuel : nat) (M : M2) (n : Z) :
  n < 2 ^ Z.of_nat fuel →
  matrix_exponentiation._matrix_pow (S fuel) (rows M) n
  = Some (Ret (rows (m2_pow (Z.to_nat n) M))).
Proof. apply matrix_pow_spec. Qed.

Lemma entry_top_left (a b c d : Z) :
  matrix_exponentiation.entry (rows (a, b, c, d)) 0 0 = Ret a.
Proof. reflexivity. Qed.

Lemma fibonacci_matrix_power (k : nat) :
  m2_pow (S k) (1, 1, 1, 0)
  = (fib_spec (S (S k)), fib_spec (S k), fib_spec (S k), fib_spec k).
Proof.
  induction k as [|k IH]; [done|].
  change (m2_pow (S (S k)) (1, 1, 1, 0))
    with (m2_mul (1, 1, 1, 0) (m2_pow (S k) (1, 1, 1, 0))).
  rewrite IH. unfold m2_mul.
  rewrite !(fib_spec_step (S k)), !(fib_spec_step k).
  f_equal; [f_equal; [f_equal|]|]; lia.
Qed.

(** X11: [MatrixExponentiation.calculate] raises [ValueError] below zero and
    returns F(n) from zero on, given fuel for as many evaluations of the
    loop condition as [n] has binary digits. *)
Theorem matrix_exponentiation_correct (fuel : nat) (n : Z) :
  n < 2 ^ Z.of_nat fuel →
  matrix_exponentiation.calculate (S fuel) n
  = Some (if n <? 0 then Raise (ValueError "n must be non-negative")
          else Ret (fib_spec (Z.to_nat n))).
Proof.
  intros Hbound. unfold matrix_exponentiation.calculate.
  destruct (Z.ltb_spec n 0); [done|].
  destruct (Z.leb_spec n 1); [by rewrite fib_spec_small|].
  change [[1; 1]; [1; 0]] with (rows (1, 1, 1, 0)).
  rewrite matrix_pow_spec by lia.
  replace (Z.to_nat (n - 1)) with (S (Z.to_nat (n - 2))) by lia.
  rewrite fibonacci_matrix_power, entry_top_left.
  do 3 f_equal. lia.
Qed.

(** *** Memoized recursion *)











End technique_facts.

(** ** Validation of a technique *)
Section technique_validation_facts.
Import base_technique technique_validation technique_loader.

Lemma known_largest_index : Py.max (KNOWN_FIBONACCI_items.*1) id = Ret 500.
Proof. vm_compute. reflexivity. Qed.

Lemma known_is_fibonacci (n v : Z) :
  KNOWN_FIBONACCI !! n = Some v → 0 ≤ n ∧ v = fib_spec (Z.to_nat n).
Proof.
  intros Href%compute_fibonacci_reference_table.
  destruct (Z.ltb_spec n 0) as [Hneg|Hpos].
  - by rewrite compute_fibonacci_reference_negative in Href.
  - rewrite compute_fibonacci_reference_fib in Href by done.
    split; [done|congruence].
Qed.

Lemma known_up_to_10 (n : Z) : 0 ≤ n ≤ 10 → is_Some (KNOWN_FIBONACCI !! n).
Proof.
  intros Hn.
  assert (n = 0 ∨ n = 1 ∨ n = 2 ∨ n = 3 ∨ n = 4 ∨ n = 5 ∨ n = 6 ∨ n = 7
          ∨ n = 8 ∨ n = 9 ∨ n = 10) as Hcases by lia.
  repeat (destruct Hcases as [->|Hcases]; [vm_compute; eauto|]).
  subst. vm_compute. eauto.
Qed.

(** X15: The validator accepts what the reference computation returns. *)
Theorem reference_passes_validate_result (n v : Z) :
  compute_fibonacci_reference n = Ret v → validate_result n v = true.
Proof.
  intros Href. unfold validate_result.
  destruct (KNOWN_FIBONACCI !! n) as [known|] eqn:Hknown; [|done].
  apply compute_fibonacci_reference_table in Hknown.
  apply Z.eqb_eq. congruence.
Qed.

Lemma check_index_agrees (technique : FibonacciTechnique) (n : Z) :
  (∀ expected, KNOWN_FIBONACCI !! n = Some expected →
               calculate technique n = Ret expected) →
  check_index technique n = Ret Next.
Proof.
  intros Hcalc. unfold check_index.
  destruct (KNOWN_FIBONACCI !! n) as [expected|]; [|done].
  rewrite (Hcalc expected eq_refl). by rewrite Z.eqb_refl.
Qed.

Lemma check_index_next (technique : FibonacciTechnique) (n expected : Z) :
  check_index technique n = Ret Next →
  KNOWN_FIBONACCI !! n = Some expected →
  calculate technique n = Ret expected.
Proof.
  unfold check_index. intros Hcheck Hknown. rewrite Hknown in Hcheck.
  destruct (calculate technique n) as [result|e].
  - destruct (Z.eqb_spec result expected); [congruence|discriminate].
  - cbn [first_match] in Hcheck.
    destruct (isinstance e "RecursionError");
      [destruct (n <=? 10); discriminate|].
    destruct (isinstance e "Exception"); discriminate.
Qed.

Lemma check_index_break (technique : FibonacciTechnique) (n : Z) :
  check_index technique n = Ret Break → 10 < n.
Proof.
  unfold check_index.
  destruct (KNOWN_FIBONACCI !! n) as [expected|]; [|discriminate].
  destruct (calculate technique n) as [result|e].
  - destruct (negb _); discriminate.
  - cbn [first_match].
    destruct (isinstance e "RecursionError").
    + destruct (Z.leb_spec n 10); [discriminate|done].
    + destruct (isinstance e "Exception"); discriminate.
Qed.

Lemma check_index_return (technique : FibonacciTechnique) (n : Z) answer :
  check_index technique n = Ret (Return answer) → answer.1 = false.
Proof.
  unfold check_index.
  destruct (KNOWN_FIBONACCI !! n) as [expected|]; [|discriminate].
  destruct (calculate technique n) as [result|e].
  - destruct (negb _); [by intros [= <-]|discriminate].
  - cbn [first_match].
    destruct (isinstance e "RecursionError").
    + destruct (n <=? 10); [by intros [= <-]|discriminate].
    + destruct (isinstance e "Exception"); [by intros [= <-]|discriminate].
Qed.

Lemma validate_loop_unfold (technique : FibonacciTechnique) (n : Z) (rest : list Z) :
  validate_loop technique (n :: rest)
  = s ← check_index technique n;
    match s with
    | Next => validate_loop technique rest
    | Break => Ret (true, None)
    | Return answer => Ret answer
    end.
Proof. reflexivity. Qed.

Lemma validate_loop_passed (technique : FibonacciTechnique) (len : nat) :
  ∀ lo : Z,
    validate_loop technique (seqZ lo (Z.of_nat len)) = Ret (true, None) →
    ∀ n, lo ≤ n < lo + Z.of_nat len → n ≤ 10 → check_index technique n = Ret Next.
Proof.
  induction len as [|len IH]; intros lo Hloop n Hn Hsmall; [lia|].
  rewrite seqZ_S, validate_loop_unfold in Hloop.
  destruct (check_index technique lo) as [[| |answer]|e] eqn:Hcheck;
    cbn [mbind res_bind] in Hloop.
  - destruct (decide (n = lo)) as [->|Hne]; [done|].
    apply (IH (lo + 1)); [done|lia|done].
  - apply check_index_break in Hcheck. lia.
  - apply check_index_return in Hcheck. injection Hloop as ->. done.
  - discriminate.
Qed.

Lemma validate_loop_stops (technique : FibonacciTechnique) (len : nat) :
  ∀ (lo k : Z) (s : step),
    lo ≤ k < lo + Z.of_nat len →
    (∀ j, lo ≤ j < k → check_index technique j = Ret Next) →
    check_index technique k = Ret s →
    s ≠ Next →
    validate_loop technique (seqZ lo (Z.of_nat len))
    = Ret (match s with Return answer => answer | _ => (true, None) end).
Proof.
  induction len as [|len IH]; intros lo k s Hk Hprefix Hcheck Hstop; [lia|].
  rewrite seqZ_S, validate_loop_unfold.
  destruct (decide (k = lo)) as [->|Hne].
  - rewrite Hcheck. cbn [mbind res_bind]. by destruct s.
  - rewrite (Hprefix lo) by lia. cbn [mbind res_bind].
    apply (IH (lo + 1) k); [lia| |done..].
    intros j Hj. apply Hprefix. lia.
Qed.

Lemma validate_loop_all_next (technique : FibonacciTechnique) (indices : list Z) :
  (∀ n, n ∈ indices → check_index technique n = Ret Next) →
  validate_loop technique indices = Ret (true, None).
Proof.
  induction indices as [|n rest IH]; intros Hall; [done|].
  rewrite validate_loop_unfold, (Hall n) by (by left). cbn [mbind res_bind].
  apply IH. intros m Hm. apply Hall. by right.
Qed.

Lemma validate_technique_unfold (technique : FibonacciTechnique) (test_range : Z) :
  validate_technique technique test_range
  = validate_loop technique (seqZ 0 (Z.min test_range 501)).
Proof.
  unfold validate_technique. rewrite known_largest_index. cbn [mbind res_bind].
  unfold range. by rewrite Z.sub_0_r.
Qed.

(** X16: If [validate_technique] answers [(True, None)], the technique returns
    the Fibonacci number at every index below [test_range] up to 10. *)
Theorem validate_technique_sound
    (technique : FibonacciTechnique) (test_range n : Z) :
  validate_technique technique test_range = Ret (true, None) →
  0 ≤ n < test_range →
  n ≤ 10 →
  calculate technique n = Ret (fib_spec (Z.to_nat n)).
Proof.
  rewrite validate_technique_unfold. intros Hloop Hn Hsmall.
  replace (Z.min test_range 501)
    with (Z.of_nat (Z.to_nat (Z.min test_range 501))) in Hloop by lia.
  pose proof (validate_loop_passed technique _ 0 Hloop n ltac:(lia) Hsmall) as Hnext.
  destruct (known_up_to_10 n ltac:(lia)) as [expected Hknown].
  rewrite (check_index_next technique n expected Hnext Hknown).
  by destruct (known_is_fibonacci n expected Hknown) as [_ ->].
Qed.

(** X17: A technique that returns the Fibonacci number at every index below
    [test_range] gets [(True, None)]; with a [test_range] of zero or
    less nothing is tested and every technique gets it. *)
Theorem validate_technique_accepts_correct
    (technique : FibonacciTechnique) (test_range : Z) :
  (∀ n, 0 ≤ n < test_range → calculate technique n = Ret (fib_spec (Z.to_nat n))) →
  validate_technique technique test_range = Ret (true, None).
Proof.
  intros Hcorrect. rewrite validate_technique_unfold.
  apply validate_loop_all_next. intros n Hn.
  apply elem_of_seqZ in Hn.
  apply check_index_agrees. intros expected Hknown.
  destruct (known_is_fibonacci n expected Hknown) as [_ ->].
  apply Hcorrect. lia.
Qed.

(** X18: The first tabulated index at which the technique returns a wrong
    value decides the answer: [(False, "F(k): expected e, got v")]. *)
Theorem validate_technique_reports_first_mismatch
    (technique : FibonacciTechnique) (test_range k expected v : Z) :
  0 ≤ k < Z.min test_range 501 →
  (∀ j e, 0 ≤ j < k → KNOWN_FIBONACCI !! j = Some e → calculate technique j = Ret e) →
  KNOWN_FIBONACCI !! k = Some expected →
  calculate technique k = Ret v →
  v ≠ expected →
  validate_technique technique test_range
  = Ret (false, Some ("F(" +:+ str k +:+ "): expected " +:+ str expected
                      +:+ ", got " +:+ str v)).
Proof.
  intros Hk Hprefix Hknown Hcalc Hwrong. rewrite validate_technique_unfold.
  replace (Z.min test_range 501)
    with (Z.of_nat (Z.to_nat (Z.min test_range 501))) by lia.
  rewrite (validate_loop_stops technique _ 0 k
             (Return (false, Some ("F(" +:+ str k +:+ "): expected " +:+ str expected
                                   +:+ ", got " +:+ str v)))); [done|lia| | |done].
  - intros j Hj. apply check_index_agrees. intros e He. by apply Hprefix.
  - unfold check_index. rewrite Hknown, Hcalc.
    by destruct (Z.eqb_spec v expected).
Qed.

(** X19: A [RecursionError] at the first tabulated index that does not come
    out right fails the validation only up to index 10; later it ends
    the validation with [(True, None)], whatever the technique would do
    at the indices after it. *)
Theorem validate_technique_tolerates_late_recursion_error
    (technique : FibonacciTechnique) (test_range k : Z) (e : exn) :
  0 ≤ k < Z.min test_range 501 →
  (∀ j x, 0 ≤ j < k → KNOWN_FIBONACCI !! j = Some x → calculate technique j = Ret x) →
  is_Some (KNOWN_FIBONACCI !! k) →
  calculate technique k = Raise e →
  isinstance e "RecursionError" = true →
  validate_technique technique test_range
  = Ret (if k <=? 10
         then (false, Some ("RecursionError at n=" +:+ str k +:+ " (too early)"))
         else (true, None)).
Proof.
  intros Hk Hprefix [expected Hknown] Hcalc Hrec. rewrite validate_technique_unfold.
  replace (Z.min test_range 501)
    with (Z.of_nat (Z.to_nat (Z.min test_range 501))) by lia.
  rewrite (validate_loop_stops technique _ 0 k
             (if k <=? 10
              then Return (false, Some ("RecursionError at n=" +:+ str k +:+ " (too early)"))
              else Break)).
  - by destruct (k <=? 10).
  - lia.
  - intros j Hj. apply check_index_agrees. intros x Hx. by apply Hprefix.
  - unfold check_index. rewrite Hknown, Hcalc. cbn [first_match]. by rewrite Hrec.
  - by destruct (k <=? 10).
Qed.


(** X21: What [_validate_technique_interface] raises when [calculate] fails
    with an exception deriving from [Exception], or returns a wrong
    value, is always a [TypeError]. *)
Theorem validate_technique_interface_raises_type_error
    (technique : FibonacciTechnique) (raised : exn) :
  (∀ n e, calculate technique n = Raise e → isinstance e "Exception" = true) →
  _validate_technique_interface technique = Raise raised →
  exn_type raised = "TypeError".
Proof.
  intros Hfaults. unfold _validate_technique_interface.
  case_bool_decide as Hname; [by intros [= <-]|].
  destruct (calculate technique 0) as [r0|e0] eqn:H0; cbn [mbind res_bind].
  2:{ cbn [first_match]. rewrite (Hfaults 0 e0 H0). by intros [= <-]. }
  destruct (Z.eqb_spec r0 0) as [->|]; cbn [negb mbind res_bind].
  2:{ by intros [= <-]. }
  destruct (calculate technique 1) as [r1|e1] eqn:H1; cbn [mbind res_bind].
  2:{ cbn [first_match]. rewrite (Hfaults 1 e1 H1). by intros [= <-]. }
  destruct (Z.eqb_spec r1 1) as [->|]; cbn [negb]; [discriminate|].
  by intros [= <-].
Qed.

End technique_validation_facts.

(** ** More on the timing loop *)
Section timer_more_facts.
Import timer.
Context {V : Type}.
Variable clocks : Clocks.
Variable self : PrecisionTimer.
Variable func : Z → res V.
Variable validate_func : option (Z → V → res bool).

Local Abbreviation run := (run_for_duration clocks self func validate_func).
Local Abbreviation open := (before_deadline clocks self).
Local Abbreviation ok := (succeeds func validate_func).
Local Abbreviation exits := (loop_exit clocks self func validate_func).


(** X23: Once the clock is past the deadline at the [m]-th evaluation of the
    loop condition, [run_for_duration] has returned, after at most [m]
    calls, whatever the calls do. *)
Theorem run_ends_at_deadline (fuel : nat) (start_n : Z) (w : World) (m : nat) :
  (m < fuel)%nat →
  ¬ open (perf_counter_at clocks (ticks w)) (S (ticks w) + m) →
  ∃ out w',
    run fuel start_n w = Some (out, w')
    ∧ (length (trace w') ≤ length (trace w) + m)%nat.
Proof.
  intros Hfuel Hclosed.
  destruct (run_terminates clocks self func validate_func fuel start_n w m Hfuel Hclosed)
    as [[out w'] Hrun].
  exists out, w'. split; [done|].
  apply run_sound in Hrun as (m' & exit & _ & Hpre & Hexit & Hout).
  assert (m' ≤ m)%nat as Hle.
  { destruct (decide (m' ≤ m)%nat) as [|Hgt]; [done|].
    destruct (Hpre m) as [Hopen _]; [lia|]. done. }
  assert (length (last_call exit) = 0%nat ∨ (m' < m)%nat) as Hlast.
  { destruct Hexit as [Hclosed'|Hopen Hrej|e Hopen Hraise]; [by left|right..];
      (destruct (decide (m' = m)) as [->|]; [done|lia]). }
  assert (length (last_call exit) ≤ 1)%nat as Hone
    by (destruct exit as [? ? [?|]|]; cbn; lia).
  unfold run_outcome in Hout.
  destruct (handled exit); injection Hout as _ ->; cbn [trace];
    rewrite length_app, length_fmap, length_app, length_seqZ; lia.
Qed.

(** X24: An exception that matches none of the four [except] clauses leaves
    [run_for_duration] as it is: no [TimingResult] is returned. *)
Theorem run_lets_other_exceptions_through
    (fuel : nat) (start_n n : Z) (w : World) (e : exn) :
  call_is_made clocks self func validate_func w start_n n →
  (Z.to_nat (n - start_n) < fuel)%nat →
  func n = Raise e →
  isinstance e "RecursionError" = false →
  isinstance e "MemoryError" = false →
  isinstance e "OverflowError" = false →
  isinstance e "Exception" = false →
  ∃ w',
    run fuel start_n w = Some (Raise e, w')
    ∧ trace w' = trace w ++ (EvCall <$> seqZ start_n (n - start_n + 1)).
Proof.
  intros (m & Hm & Hn & Hpre & Hopen)%call_is_made_prefix Hfuel Hraise H1 H2 H3 H4.
  rewrite <- Hm in Hfuel.
  assert (Hexit : exits (perf_counter_at clocks (ticks w))
                    (start_n + Z.of_nat m) (Z.of_nat m) (S (ticks w) + m)
                    (Excepted (start_n + Z.of_nat m) (Z.of_nat m) e)).
  { apply exit_raised; [done|]. left. by rewrite Hn. }
  rewrite (run_complete _ _ _ _ _ _ _ _ _ Hfuel Hpre Hexit).
  unfold run_outcome. cbn [handled last_call first_match except_clauses].
  rewrite H1, H2, H3, H4.
  eexists. split; [reflexivity|]. cbn [trace].
  rewrite seqZ_snoc_nat. do 3 f_equal. lia.
Qed.

End timer_more_facts.

(** ** More on the orchestration *)
Section runner_more_facts.
Import timer base_technique benchmark_runner benchmark_batch.
Variable clocks : Clocks.
Variable self : BenchmarkRunner.

Local Abbreviation validation :=
  (if validate self
   then Some (λ n result : Z, Ret (validate_result n result))
   else None).

(** The calls a returned timed run has made: the counted ones, and one
    more when it ended with an error. *)
Lemma run_trace_shape {V : Type} (timer : PrecisionTimer) (func : Z → res V)
    (validate_func : option (Z → V → res bool))
    (fuel : nat) (start_n : Z) (w : World) (r : TimingResult) (w' : World) :
  run_for_duration clocks timer func validate_func fuel start_n w = Some (Ret r, w') →
  0 ≤ timer.count r
  ∧ nows w' = nows w
  ∧ trace w'
    = trace w
      ++ (EvCall <$> seqZ start_n
                      (timer.count r
                       + match timer.error r with Some _ => 1 | None => 0 end)).
Proof.
  intros (m & exit & _ & _ & Hexit & Hout)%run_sound.
  unfold run_outcome in Hout.
  destruct (handled exit) as [error_msg|e] eqn:Hhandled; [|discriminate].
  injection Hout as -> ->. cbn [timer.count timer.error trace nows].
  split; [lia|]. split; [done|].
  destruct Hexit as [Hclosed|Hopen Hrej|e Hopen Hraise]; cbn [handled last_call] in *.
  - injection Hhandled as <-. by rewrite app_nil_r, Z.add_0_r.
  - injection Hhandled as <-. by rewrite seqZ_snoc_nat.
  - destruct (first_match e _); [|discriminate].
    injection Hhandled as <-. by rewrite seqZ_snoc_nat.
Qed.

Lemma validate_result_fibonacci (n : Z) :
  validate_result n (fib_spec (Z.to_nat n)) = true.
Proof.
  unfold validate_result.
  destruct (KNOWN_FIBONACCI !! n) as [known|] eqn:Hknown; [|done].
  destruct (known_is_fibonacci n known Hknown) as [_ ->]. apply Z.eqb_refl.
Qed.

(** X25: Whenever [run_single] returns a result after a setup that did not
    fail, the external calls it made are, in order: [setup], the
    calculations at 0, 1, ... (the counted ones, and the failing one if
    there is an error), and [teardown] last; so [teardown] also runs
    after a timed run that ended with an error. *)
Theorem run_single_calls_teardown_last
    (fuel : nat) (technique : FibonacciTechnique) (w : World)
    (r : BenchmarkResult) (w' : World) :
  setup technique = Ret tt →
  run_single clocks self fuel technique w = Some (Ret r, w') →
  trace w'
  = trace w ++ [EvSetup]
    ++ (EvCall <$> seqZ 0 (count r + match error r with Some _ => 1 | None => 0 end))
    ++ [EvTeardown].
Proof.
  intros Hsetup. unfold run_single. rewrite Hsetup.
  destruct (run_for_duration _ _ _ _ _ _ _) as [[[timing_result|e] w1]|] eqn:Hrun;
    [|discriminate..].
  apply run_trace_shape in Hrun as (_ & _ & Htrace).
  cbn [record trace] in Htrace.
  destruct (teardown technique) as [[]|e]; cbn [first_match].
  - intros [= <- <-].
    cbn [new_BenchmarkResult datetime_now record trace count error].
    rewrite Htrace. by rewrite <- !app_assoc.
  - destruct (isinstance e "Exception"); [|discriminate].
    intros [= <- <-].
    cbn [new_BenchmarkResult datetime_now record trace count error].
    rewrite Htrace. by rewrite <- !app_assoc.
Qed.

(** X26: A technique whose [calculate] returns the Fibonacci number at every
    index from zero on, benchmarked after a setup that did not fail,
    gets a result without error: neither the validation nor a fault
    ever stops its run. *)
Theorem run_single_correct_technique_has_no_error
    (fuel : nat) (technique : FibonacciTechnique) (w : World)
    (r : BenchmarkResult) (w' : World) :
  setup technique = Ret tt →
  (∀ n, 0 ≤ n → calculate technique n = Ret (fib_spec (Z.to_nat n))) →
  run_single clocks self fuel technique w = Some (Ret r, w') →
  error r = None.
Proof.
  intros Hsetup Hcorrect. unfold run_single. rewrite Hsetup.
  destruct (run_for_duration _ _ _ _ _ _ _) as [[[timing_result|e] w1]|] eqn:Hrun;
    [|discriminate..].
  apply run_sound in Hrun as (m & exit & _ & _ & Hexit & Hout).
  assert (timer.error timing_result = None) as Hnone.
  { unfold run_outcome in Hout.
    destruct Hexit as [Hclosed|Hopen Hrej|e Hopen Hraise]; cbn [handled] in Hout.
    - by injection Hout as -> _.
    - exfalso. destruct Hrej as (v & validate_fn & Hv & Hvf & Hval).
      rewrite Hcorrect in Hv by lia. injection Hv as <-.
      destruct (validate self); [|discriminate].
      injection Hvf as <-. by rewrite validate_result_fibonacci in Hval.
    - exfalso. destruct Hraise as [Hv|(v & validate_fn & Hv & Hvf & Hval)].
      + by rewrite Hcorrect in Hv by lia.
      + destruct (validate self); [|discriminate]. by injection Hvf as <-. }
  destruct (teardown technique) as [[]|e]; cbn [first_match].
  - intros [= <- <-]. by cbn.
  - destruct (isinstance e "Exception"); [|discriminate].
    intros [= <- <-]. by cbn.
Qed.

(** X27: When a calculation raises an exception that none of the timer's
    [except] clauses matches, [run_single] lets it through as well, and
    [teardown] is not called. *)
Theorem run_single_interrupted_skips_teardown
    (fuel : nat) (technique : FibonacciTechnique) (w : World) (n : Z) (e : exn) :
  setup technique = Ret tt →
  call_is_made clocks (benchmark_runner.timer self) (calculate technique) validation
    (record EvSetup w) 0 n →
  (Z.to_nat n < fuel)%nat →
  calculate technique n = Raise e →
  isinstance e "RecursionError" = false →
  isinstance e "MemoryError" = false →
  isinstance e "OverflowError" = false →
  isinstance e "Exception" = false →
  ∃ w',
    run_single clocks self fuel technique w = Some (Raise e, w')
    ∧ trace w' = trace w ++ [EvSetup] ++ (EvCall <$> seqZ 0 (n + 1)).
Proof.
  intros Hsetup (m & Hm & Hn & Hpre & Hopen)%call_is_made_prefix Hfuel Hraise H1 H2 H3 H4.
  rewrite Z.sub_0_r in Hm. rewrite <- Hm in Hfuel.
  assert (Hexit : loop_exit clocks (benchmark_runner.timer self) (calculate technique)
                    validation (perf_counter_at clocks (ticks (record EvSetup w)))
                    (0 + Z.of_nat m) (Z.of_nat m) (S (ticks (record EvSetup w)) + m)
                    (Excepted (0 + Z.of_nat m) (Z.of_nat m) e)).
  { apply exit_raised; [done|]. left. by rewrite Hn. }
  unfold run_single. rewrite Hsetup.
  rewrite (run_complete _ _ _ _ _ _ _ _ _ Hfuel Hpre Hexit).
  unfold run_outcome. cbn [handled last_call first_match except_clauses].
  rewrite H1, H2, H3, H4.
  eexists. split; [reflexivity|]. cbn [trace record].
  rewrite seqZ_snoc_nat, <- app_assoc. do 4 f_equal. lia.
Qed.

Lemma run_single_count_nonneg
    (fuel : nat) (technique : FibonacciTechnique) (w : World)
    (r : BenchmarkResult) (w' : World) :
  run_single clocks self fuel technique w = Some (Ret r, w') →
  0 ≤ count r ∧ technique_name r = name technique.
Proof.
  unfold run_single.
  destruct (setup technique) as [[]|e0]; cbn [first_match].
  2:{ destruct (isinstance e0 "Exception"); [|discriminate].
      intros [= <- <-]. by cbn. }
  destruct (run_for_duration _ _ _ _ _ _ _) as [[[timing_result|e] w1]|] eqn:Hrun;
    [|discriminate..].
  apply run_trace_shape in Hrun as (Hcount & _).
  destruct (teardown technique) as [[]|e]; cbn [first_match].
  - intros [= <- <-]. by cbn.
  - destruct (isinstance e "Exception"); [|discriminate].
    intros [= <- <-]. by cbn.
Qed.

(** X28: The [rate] of a result of [run_single] is never negative, and it is
    zero exactly when nothing was counted or the duration is not
    positive (as after a failed setup, where it is 0.0): the division is
    guarded. *)
Theorem run_single_rate_is_guarded
    (fuel : nat) (technique : FibonacciTechnique) (w : World)
    (r : BenchmarkResult) (w' : World) :
  run_single clocks self fuel technique w = Some (Ret r, w') →
  (0 <= rate r)%Q
  ∧ ((rate r == 0)%Q ↔ count r = 0 ∨ (duration r <= 0)%Q).
Proof.
  intros [Hcount _]%run_single_count_nonneg. unfold rate.
  destruct (Qlt_le_dec 0 (duration r)) as [Hpos|Hzero].
  - assert (¬ (duration r == 0)%Q) as Hne by (intros Heq; rewrite Heq in Hpos; lra).
    split.
    + apply Qle_shift_div_l; [done|].
      apply Qle_trans with 0%Q; [lra|].
      change 0%Q with (inject_Z 0). by rewrite <- Zle_Qle.
    + split.
      * intros Heq. left.
        assert (inject_Z (count r) == inject_Z 0)%Q as Hc.
        { apply Qeq_trans with (duration r * (inject_Z (count r) / duration r))%Q;
            [symmetry; by apply Qmult_div_r|].
          apply Qeq_trans with (duration r * 0)%Q;
            [apply Qmult_comp; [reflexivity|exact Heq]|apply Qmult_0_r]. }
        by apply inject_Z_injective.
      * intros [->|Hle]; [|lra]. unfold Qdiv. apply Qmult_0_l.
  - split; [lra|]. split; [by right|reflexivity].
Qed.

End runner_more_facts.

(** ** The batch *)
Section batch_facts.
Import timer base_technique benchmark_runner benchmark_batch.
Variable clocks : Clocks.
Variable fmt : FloatFormat.

Lemma run_all_loop_unfold (self : BenchmarkRunner) (fuel : nat) (i total : Z)
    (technique : FibonacciTechnique) (rest : list FibonacciTechnique)
    (results : list BenchmarkResult) (w : World) (stdout : list string) :
  run_all_loop clocks self fuel i total (technique :: rest) results w stdout
  = match run_single clocks self fuel technique w with
    | None => None
    | Some (Raise e, w) =>
        Some (Raise e, w,
              progress self ("[" +:+ str i +:+ "/" +:+ str total +:+ "] Benchmarking: "
                             +:+ name technique +:+ "..." +:+ " ") stdout)
    | Some (Ret result, w) =>
        run_all_loop clocks self fuel (i + 1) total rest (results ++ [result]) w
          (match error result with
           | None =>
               progress self
                 (format_thousands (count result) +:+ " numbers (max n="
                  +:+ format_thousands (max_n result) +:+ ")" +:+ nl)
           | Some msg => progress self ("ERROR: " +:+ msg +:+ nl)
           end
             (progress self ("[" +:+ str i +:+ "/" +:+ str total +:+ "] Benchmarking: "
                             +:+ name technique +:+ "..." +:+ " ") stdout))
    end.
Proof.
  cbn [run_all_loop].
  destruct (run_single clocks self fuel technique w) as [[[result|e] w1]|]; [|done..].
  by destruct (error result).
Qed.

Lemma run_all_loop_names (self : BenchmarkRunner) (fuel : nat)
    (techniques : list FibonacciTechnique) :
  ∀ (i total : Z) (results : list BenchmarkResult) (w : World) (stdout : list string)
    (all : list BenchmarkResult) (w' : World) (stdout' : list string),
    run_all_loop clocks self fuel i total techniques results w stdout
    = Some (Ret all, w', stdout') →
    ∃ new,
      all = results ++ new
      ∧ technique_name <$> new = name <$> techniques
      ∧ Forall (λ r, 0 ≤ count r) new.
Proof.
  induction techniques as [|technique rest IH];
    intros i total results w stdout all w' stdout' Hloop.
  - injection Hloop as <- _ _. exists []. by rewrite app_nil_r.
  - rewrite run_all_loop_unfold in Hloop.
    destruct (run_single clocks self fuel technique w) as [[[result|e] w1]|] eqn:Hsingle;
      [|discriminate..].
    apply run_single_count_nonneg in Hsingle as [Hcount Hname].
    apply IH in Hloop as (new & -> & Hnames & Hcounts).
    exists (result :: new). split; [by rewrite <- app_assoc|].
    split; [by rewrite !fmap_cons, Hname, Hnames|by constructor].
Qed.

(** X29: The summary [run_all] returns has one result per technique, in the
    order the techniques were given (or loaded), each under its
    technique's name; a technique that failed still has its slot. *)
Theorem run_all_keeps_submission_order
    (self : BenchmarkRunner) (load_all_techniques : res (list FibonacciTechnique))
    (fuel : nat) (given : option (list FibonacciTechnique))
    (techniques : list FibonacciTechnique)
    (w : World) (stdout : list string)
    (summary : BenchmarkSummary) (w' : World) (stdout' : list string) :
  match given with Some ts => Ret ts | None => load_all_techniques end = Ret techniques →
  run_all clocks fmt self load_all_techniques fuel given w stdout
  = Some (Ret summary, w', stdout') →
  technique_name <$> results summary = name <$> techniques
  ∧ length (results summary) = length techniques.
Proof.
  intros Hgiven. unfold run_all. cbn [perf_counter].
  assert (∃ stdout0,
            match given with
            | Some ts => (Ret ts, stdout)
            | None => (load_all_techniques,
                       progress self ("Loading techniques..." +:+ nl) stdout)
            end = (Ret techniques, stdout0)) as [stdout0 ->].
  { destruct given; [injection Hgiven as ->|rewrite Hgiven]; eauto. }
  destruct (run_all_loop _ _ _ _ _ _ _ _ _) as [[[[all|e] w1] stdout1]|] eqn:Hloop;
    [|discriminate..].
  apply run_all_loop_names in Hloop as (new & -> & Hnames & _).
  cbn [perf_counter datetime_now]. intros [= <- _ _]. cbn [results app].
  split; [done|].
  by rewrite <- (length_fmap technique_name), Hnames, length_fmap.
Qed.




End batch_facts.

(** ** Instances of the statements above *)
Section more_instances.
Import techniques timer base_technique benchmark_runner benchmark_batch.
Import technique_validation technique_loader.

Lemma naive_recursion_correct_witness :
  naive_recursion.calculate 10 10 = Ret (fib_spec (Z.to_nat 10)).
Proof. apply naive_recursion_correct; lia. Defined.

Lemma naive_recursion_overflow_witness :
  naive_recursion.calculate 9 10 = Raise stack_overflow.
Proof. apply naive_recursion_overflow; lia. Defined.

Lemma fast_doubling_correct_witness :
  fast_doubling._fast_doubling 5 10
  = Ret (fib_spec (Z.to_nat 10), fib_spec (Z.to_nat (10 + 1)))
  ∧ fast_doubling.calculate 6 10 = Ret (fib_spec (Z.to_nat 10)).
Proof. apply (fast_doubling_correct 4 10); [lia|reflexivity]. Defined.

Lemma fast_doubling_negative_witness :
  fast_doubling._fast_doubling 50 (-3) = Raise stack_overflow
  ∧ fast_doubling.calculate 51 (-3) = Raise (ValueError "n must be non-negative").
Proof. apply (fast_doubling_negative_never_returns 50 (-3)). lia. Defined.

Lemma matrix_pow_is_power_witness :
  matrix_exponentiation._matrix_pow 4 (rows (2, 1, 0, 2)) 5
  = Some (Ret (rows (m2_pow (Z.to_nat 5) (2, 1, 0, 2)))).
Proof. apply (matrix_pow_is_power 3 (2, 1, 0, 2) 5). reflexivity. Defined.

Lemma matrix_exponentiation_correct_witness :
  matrix_exponentiation.calculate 5 10
  = Some (if 10 <? 0 then Raise (ValueError "n must be non-negative")
          else Ret (fib_spec (Z.to_nat 10))).
Proof. apply (matrix_exponentiation_correct 4 10). reflexivity. Defined.



Lemma reference_passes_validate_result_witness : validate_result 10 55 = true.
Proof. apply (reference_passes_validate_result 10 55). reflexivity. Defined.

Lemma validate_technique_sound_witness :
  calculate reference_technique 5 = Ret (fib_spec (Z.to_nat 5)).
Proof.
  apply (validate_technique_sound reference_technique 20 5).
  - vm_compute. reflexivity.
  - lia.
  - lia.
Defined.

Lemma validate_technique_accepts_correct_witness :
  validate_technique reference_technique 15 = Ret (true, None).
Proof.
  apply (validate_technique_accepts_correct reference_technique 15).
  intros n Hn. apply compute_fibonacci_reference_fib. lia.
Defined.

Lemma validate_technique_first_mismatch_witness :
  validate_technique (technique_of "Wrong at 4" wrong_at_4) 20
  = Ret (false, Some ("F(" +:+ str 4 +:+ "): expected " +:+ str 3
                      +:+ ", got " +:+ str 4)).
Proof.
  apply (validate_technique_reports_first_mismatch
           (technique_of "Wrong at 4" wrong_at_4) 20 4 3 4).
  - vm_compute. split; [discriminate|reflexivity].
  - intros j e Hj Hknown.
    apply compute_fibonacci_reference_table in Hknown.
    cbn [calculate technique_of]. unfold wrong_at_4.
    by destruct (Z.eqb_spec j 4); [lia|].
  - vm_compute. reflexivity.
  - reflexivity.
  - lia.
Defined.

Lemma validate_technique_late_recursion_witness :
  validate_technique (technique_of "Deep from 12" deep_from_12) 20
  = Ret (if 12 <=? 10
         then (false, Some ("RecursionError at n=" +:+ str 12 +:+ " (too early)"))
         else (true, None)).
Proof.
  apply (validate_technique_tolerates_late_recursion_error
           (technique_of "Deep from 12" deep_from_12) 20 12 stack_overflow).
  - vm_compute. split; [discriminate|reflexivity].
  - intros j x Hj Hknown.
    apply compute_fibonacci_reference_table in Hknown.
    cbn [calculate technique_of]. unfold deep_from_12.
    by destruct (Z.ltb_spec j 12); [|lia].
  - vm_compute. eauto.
  - reflexivity.
  - reflexivity.
Defined.

Lemma validate_technique_interface_type_error_witness :
  exn_type (TypeError "Five: calculate() method failed: Five: calculate(0) should return 0, got 5")
  = "TypeError".
Proof.
  apply (validate_technique_interface_raises_type_error
           (technique_of "Five" (λ _, Ret 5))).
  - intros n e He. discriminate He.
  - vm_compute. reflexivity.
Defined.


Lemma run_ends_at_deadline_witness :
  ∃ out w',
    run_for_duration steady_clock quarter_second compute_fibonacci_reference
      (Some validate_with_table) 5 0 fresh = Some (out, w')
    ∧ (length (trace w') ≤ length (trace fresh) + 2)%nat.
Proof.
  apply (run_ends_at_deadline steady_clock quarter_second compute_fibonacci_reference
           (Some validate_with_table) 5 0 fresh 2).
  - lia.
  - intros Hopen. vm_compute in Hopen. discriminate Hopen.
Defined.

Lemma interrupted_call_is_made (validate_func : option (Z → Z → res bool)) (w : World) :
  ticks w = 0%nat →
  call_is_made steady_clock quarter_second interrupted validate_func w 0 0.
Proof.
  intros Hticks. split; [lia|]. split.
  - intros k Hk. lia.
  - intros k Hk. assert (k = 0) as -> by lia.
    unfold before_deadline. rewrite Hticks. reflexivity.
Defined.

Lemma run_lets_other_exceptions_through_witness :
  ∃ w',
    run_for_duration steady_clock quarter_second interrupted None 5 0 fresh
    = Some (Raise (KeyboardInterrupt ""), w')
    ∧ trace w' = trace fresh ++ (EvCall <$> seqZ 0 (0 - 0 + 1)).
Proof.
  apply (run_lets_other_exceptions_through steady_clock quarter_second interrupted
           None 5 0 0 fresh (KeyboardInterrupt "")).
  - by apply interrupted_call_is_made.
  - vm_compute. lia.
  - reflexivity.
  - reflexivity.
  - reflexivity.
  - reflexivity.
  - reflexivity.
Defined.

Lemma run_single_calls_teardown_last_witness :
  trace benchmarked_world
  = trace fresh ++ [EvSetup]
    ++ (EvCall <$> seqZ 0 (count failing_teardown_result
                           + match error failing_teardown_result with
                             | Some _ => 1
                             | None => 0
                             end))
    ++ [EvTeardown].
Proof.
  apply (run_single_calls_teardown_last steady_clock quarter_second_runner 5
           failing_teardown fresh failing_teardown_result benchmarked_world).
  - reflexivity.
  - vm_compute. reflexivity.
Defined.

Lemma run_single_correct_technique_witness : error reference_result = None.
Proof.
  apply (run_single_correct_technique_has_no_error steady_clock quarter_second_runner 5
           reference_technique fresh reference_result benchmarked_world).
  - reflexivity.
  - intros n Hn. by apply compute_fibonacci_reference_fib.
  - vm_compute. reflexivity.
Defined.

Lemma run_single_interrupted_witness :
  ∃ w',
    run_single steady_clock quarter_second_runner 5
      (technique_of "Interrupted" interrupted) fresh
    = Some (Raise (KeyboardInterrupt ""), w')
    ∧ trace w' = trace fresh ++ [EvSetup] ++ (EvCall <$> seqZ 0 (0 + 1)).
Proof.
  apply (run_single_interrupted_skips_teardown steady_clock quarter_second_runner 5
           (technique_of "Interrupted" interrupted) fresh 0 (KeyboardInterrupt "")).
  - reflexivity.
  - by apply interrupted_call_is_made.
  - vm_compute. lia.
  - reflexivity.
  - reflexivity.
  - reflexivity.
  - reflexivity.
  - reflexivity.
Defined.

Lemma run_single_rate_is_guarded_witness :
  (0 <= rate failing_teardown_result)%Q
  ∧ ((rate failing_teardown_result == 0)%Q
     ↔ count failing_teardown_result = 0 ∨ (duration failing_teardown_result <= 0)%Q).
Proof.
  apply (run_single_rate_is_guarded steady_clock quarter_second_runner 5
           failing_teardown fresh failing_teardown_result benchmarked_world).
  vm_compute. reflexivity.
Defined.

Lemma run_all_keeps_submission_order_witness :
  match run_all steady_clock blank_format quarter_second_runner (Ret []) 5
          (Some [failing_setup; reference_technique; failing_teardown]) fresh [] with
  | Some (Ret summary, _, _) =>
      technique_name <$> results summary
      = name <$> [failing_setup; reference_technique; failing_teardown]
      ∧ length (results summary) = 3%nat
  | _ => False
  end.
Proof.
  destruct (run_all steady_clock blank_format quarter_second_runner (Ret []) 5
              (Some [failing_setup; reference_technique; failing_teardown]) fresh [])
    as [[[[summary|e] w'] stdout']|] eqn:Hrun.
  - apply (run_all_keeps_submission_order steady_clock blank_format
             quarter_second_runner (Ret []) 5
             (Some [failing_setup; reference_technique; failing_teardown])
             [failing_setup; reference_technique; failing_teardown]
             fresh [] summary w' stdout' eq_refl Hrun).
  - vm_compute in Hrun. discriminate Hrun.
  - vm_compute in Hrun. discriminate Hrun.
Defined.

(** One failing setup, one clean run and one failing teardown, in the
    order submitted. *)
Example run_all_three_techniques :
  (λ out, (technique_name <$> results out, error <$> results out, count <$> results out))
    <$> (match run_all steady_clock blank_format quarter_second_runner (Ret []) 5
                 (Some [failing_setup; reference_technique; failing_teardown]) fresh [] with
         | Some (Ret summary, _, _) => Some summary
         | _ => None
         end)
  = Some (["Failing setup"; "Reference"; "Failing teardown"],
          [Some "Setup failed: warm-up failed"; None; None],
          [0; 2; 2]).
Proof. vm_compute. reflexivity. Qed.

Example format_thousands_groups : format_thousands 1234567 = "1,234,567".
Proof. reflexivity. Qed.

Example format_thousands_negative : format_thousands (-1234) = "-1,234".
Proof. reflexivity. Qed.

End more_instances.
